(** * Batch document ingestion: a shallow embedding of
      [src/lambda/document_processor.py] and the properties of its
      response parser, record assembly, document processor and batch
      handler. *)

From Stdlib Require Import ZArith NArith Ascii String Bool Lia Arith List.
Import ListNotations.

Local Open Scope Z_scope.

Set Warnings "-register-all".

(** ** Python strings

    A Python [str] is a sequence of Unicode code points; it is modelled as
    the list of its code points. *)

Definition str := list N.

(** [py "abc"] is the [str] literal ['abc']. *)
Definition py (s : string) : str := map N_of_ascii (list_ascii_of_string s).

Definition len {A} (s : list A) : Z := Z.of_nat (List.length s).

Fixpoint str_eqb (a b : str) : bool :=
  match a, b with
  | [], [] => true
  | x :: a', y :: b' => N.eqb x y && str_eqb a' b'
  | _, _ => false
  end.

(** [startswith sub s]: [s.startswith(sub)]. *)
Fixpoint startswith (sub s : str) : bool :=
  match sub, s with
  | [], _ => true
  | x :: sub', y :: s' => N.eqb x y && startswith sub' s'
  | _ :: _, [] => false
  end.

(** Scan for the lowest offset at which [sub] starts in [s]; [i] is the index
    of the head of [s] in the whole text. *)
Fixpoint find_from (sub s : str) (i : nat) : option nat :=
  if startswith sub s then Some i
  else match s with
       | [] => None
       | _ :: s' => find_from sub s' (S i)
       end.

(** Python's index normalisation for [find] and slices: a negative index
    counts from the end, and is clipped at 0. *)
Definition norm_index (n i : Z) : Z :=
  if i <? 0 then Z.max 0 (n + i) else i.

(** [find s sub start]: [s.find(sub, start)], the lowest index [>= start]
    where [sub] occurs, or [-1]. *)
Definition find (s sub : str) (start : Z) : Z :=
  let st := norm_index (len s) start in
  if len s <? st then -1
  else match find_from sub (skipn (Z.to_nat st) s) (Z.to_nat st) with
       | Some i => Z.of_nat i
       | None => -1
       end.

(** [contains sub s]: [sub in s]. *)
Definition contains (sub s : str) : bool :=
  match find_from sub s 0 with Some _ => true | None => false end.

(** [slice s start stop]: [s[start:stop]]. *)
Definition slice (s : str) (start stop : Z) : str :=
  let n := len s in
  let a := Z.min n (norm_index n start) in
  let b := Z.min n (norm_index n stop) in
  firstn (Z.to_nat (b - a)) (skipn (Z.to_nat a) s).

(** [str.isspace] on one code point (the Unicode White_Space characters and
    the four ASCII separators 0x1C-0x1F). *)
Definition isspace (c : N) : bool :=
  (((9 <=? c) && (c <=? 13)) || ((28 <=? c) && (c <=? 32))
   || (c =? 133) || (c =? 160) || (c =? 5760)
   || ((8192 <=? c) && (c <=? 8202))
   || (c =? 8232) || (c =? 8233) || (c =? 8239) || (c =? 8287)
   || (c =? 12288))%N.

Fixpoint lstrip (s : str) : str :=
  match s with
  | c :: s' => if isspace c then lstrip s' else s
  | [] => []
  end.

Definition rstrip (s : str) : str := rev (lstrip (rev s)).

(** [strip s]: [s.strip()]. *)
Definition strip (s : str) : str := rstrip (lstrip s).

(** [lower s]: [s.lower()].  The case mapping is modelled on the Latin-1
    range (A-Z and the accented capitals); code points above it are left
    unchanged. *)
Definition lower_char (c : N) : N :=
  (if ((65 <=? c) && (c <=? 90))
      || ((192 <=? c) && (c <=? 222) && negb (c =? 215))
   then c + 32 else c)%N.

Definition lower (s : str) : str := map lower_char s.

(** ** JSON values

    What [json.loads] produces: [None], [bool], [int], [float] (kept as the
    literal that was read, its floating-point value is not used by the
    program), [str], [list] and [dict].  A [dict] keeps its keys in insertion
    order; it is an association list whose keys are pairwise distinct when it
    is built with [dict_set]. *)

Inductive json : Type :=
| JNull
| JBool (b : bool)
| JInt (z : Z)
| JFloat (literal : str)
| JString (s : str)
| JArray (items : list json)
| JObject (members : list (str * json)).

Definition dict := list (str * json).

(** [dict_get d k]: [d.get(k)]. *)
Fixpoint dict_get (d : dict) (k : str) : option json :=
  match d with
  | [] => None
  | (k', v) :: d' => if str_eqb k' k then Some v else dict_get d' k
  end.

(** [dict_set d k v]: [d[k] = v].  An existing key keeps its position and
    takes the new value; a new key is appended. *)
Fixpoint dict_set (d : dict) (k : str) (v : json) : dict :=
  match d with
  | [] => [(k, v)]
  | (k', v') :: d' =>
      if str_eqb k' k then (k', v) :: d' else (k', v') :: dict_set d' k v
  end.

Definition keys (d : dict) : list str := map fst d.

(** ** The JSON decoder ([json.loads])

    A recursive-descent reading of the JSON grammar as CPython's decoder
    accepts it: the four whitespace characters, strict strings (no raw
    control character, the escapes of the grammar, surrogate pairs joined),
    numbers, the three literals and the constants [NaN], [Infinity] and
    [-Infinity].  The recursion depth limit of the interpreter and its limit
    on the length of integer literals are not modelled. *)

Definition is_ws (c : N) : bool :=
  ((c =? 32) || (c =? 9) || (c =? 10) || (c =? 13))%N.

Fixpoint skip_ws (s : str) : str :=
  match s with
  | c :: s' => if is_ws c then skip_ws s' else s
  | [] => []
  end.

Definition is_digit (c : N) : bool := ((48 <=? c) && (c <=? 57))%N.

Fixpoint span_digits (s : str) : str * str :=
  match s with
  | c :: s' =>
      if is_digit c then let (d, r) := span_digits s' in (c :: d, r)
      else ([], s)
  | [] => ([], [])
  end.

Definition digits_value (d : str) : Z :=
  fold_left (fun acc c => 10 * acc + (Z.of_N c - 48)) d 0.

Definition hex_value (c : N) : option N :=
  (if (48 <=? c) && (c <=? 57) then Some (c - 48)
   else if (65 <=? c) && (c <=? 70) then Some (c - 55)
   else if (97 <=? c) && (c <=? 102) then Some (c - 87)
   else None)%N.

Definition hex4 (a b c d : N) : option N :=
  match hex_value a, hex_value b, hex_value c, hex_value d with
  | Some x, Some y, Some z, Some w => Some (((x * 16 + y) * 16 + z) * 16 + w)%N
  | _, _, _, _ => None
  end.

(** The one-character escapes: quote, backslash, slash, b, f, n, r, t. *)
Definition simple_escape (c : N) : option N :=
  (if c =? 34 then Some 34
   else if c =? 92 then Some 92
   else if c =? 47 then Some 47
   else if c =? 98 then Some 8
   else if c =? 102 then Some 12
   else if c =? 110 then Some 10
   else if c =? 114 then Some 13
   else if c =? 116 then Some 9
   else None)%N.

Definition is_high_surrogate (u : N) : bool := ((55296 <=? u) && (u <=? 56319))%N.
Definition is_low_surrogate (u : N) : bool := ((56320 <=? u) && (u <=? 57343))%N.

Definition join_surrogates (hi lo : N) : N :=
  (65536 + ((hi - 55296) * 1024 + (lo - 56320)))%N.

(** [scanstring s]: the text after an opening quote; the decoded string and
    what follows the closing quote. *)
Fixpoint scanstring (s : str) : option (str * str) :=
  match s with
  | [] => None                                   (* unterminated *)
  | c :: s1 =>
      if (c =? 34)%N then Some ([], s1)
      else if (c =? 92)%N then
        match s1 with
        | [] => None
        | e :: s2 =>
            if (e =? 117)%N then                 (* a four-digit escape *)
              match s2 with
              | h1 :: h2 :: h3 :: h4 :: s3 =>
                  match hex4 h1 h2 h3 h4 with
                  | None => None
                  | Some u =>
                      let single :=
                        match scanstring s3 with
                        | Some (t, r) => Some (u :: t, r)
                        | None => None
                        end in
                      if is_high_surrogate u then
                        match s3 with
                        | b :: s4 =>
                            if (b =? 92)%N then
                              match s4 with
                              | u' :: s5 =>
                                  if (u' =? 117)%N then
                                    match s5 with
                                    | g1 :: g2 :: g3 :: g4 :: s6 =>
                                        match hex4 g1 g2 g3 g4 with
                                        | None => None
                                        | Some v =>
                                            if is_low_surrogate v then
                                              match scanstring s6 with
                                              | Some (t, r) =>
                                                  Some (join_surrogates u v :: t, r)
                                              | None => None
                                              end
                                            else single
                                        end
                                    | _ => None
                                    end
                                  else single
                              | [] => single
                              end
                            else single
                        | [] => single
                        end
                      else single
                  end
              | _ => None
              end
            else
              match simple_escape e with
              | None => None
              | Some x =>
                  match scanstring s2 with
                  | Some (t, r) => Some (x :: t, r)
                  | None => None
                  end
              end
        end
      else if (c <? 32)%N then None              (* control character *)
      else
        match scanstring s1 with
        | Some (t, r) => Some (c :: t, r)
        | None => None
        end
  end.

(** The optional fraction and exponent of a number: the matched text and the
    rest. *)
Definition scan_frac (s : str) : str * str :=
  match s with
  | c :: s' =>
      if (c =? 46)%N then
        match span_digits s' with
        | ([], _) => ([], s)
        | (d, r) => (c :: d, r)
        end
      else ([], s)
  | [] => ([], s)
  end.

Definition scan_exp (s : str) : str * str :=
  match s with
  | c :: s' =>
      if ((c =? 101) || (c =? 69))%N then
        let (sign, s'') :=
          match s' with
          | g :: t => if ((g =? 43) || (g =? 45))%N then ([g], t) else ([], s')
          | [] => ([], s')
          end in
        match span_digits s'' with
        | ([], _) => ([], s)
        | (d, r) => (c :: sign ++ d, r)
        end
      else ([], s)
  | [] => ([], s)
  end.

(** The sign and the integer part of a number: a lone zero, or a digit that
    is not zero followed by digits. *)
Definition scan_sign (s : str) : bool * str :=
  match s with
  | c :: t => if (c =? 45)%N then (true, t) else (false, s)
  | [] => (false, s)
  end.

Definition scan_int (s : str) : option (str * str) :=
  match s with
  | [] => None
  | c :: t =>
      if (c =? 48)%N then Some ([c], t)
      else if is_digit c then let (d, r) := span_digits t in Some (c :: d, r)
      else None
  end.

(** [scan_number s]: a number at the head of [s], if there is one. *)
Definition scan_number (s : str) : option (json * str) :=
  let (neg, s1) := scan_sign s in
  match scan_int s1 with
  | None => None
  | Some (ds, r) =>
      let (fr, r1) := scan_frac r in
      let (ex, r2) := scan_exp r1 in
      match fr, ex with
      | [], [] =>
          Some (JInt (if neg then - digits_value ds else digits_value ds), r2)
      | _, _ =>
          Some (JFloat ((if neg then [45%N] else []) ++ ds ++ fr ++ ex), r2)
      end
  end.

Definition scan_constant (s : str) : option (json * str) :=
  if startswith (py "null") s then Some (JNull, skipn 4 s)
  else if startswith (py "true") s then Some (JBool true, skipn 4 s)
  else if startswith (py "false") s then Some (JBool false, skipn 5 s)
  else if startswith (py "NaN") s then Some (JFloat (py "NaN"), skipn 3 s)
  else if startswith (py "Infinity") s then Some (JFloat (py "Infinity"), skipn 8 s)
  else if startswith (py "-Infinity") s then Some (JFloat (py "-Infinity"), skipn 9 s)
  else None.

(** [scan_once fuel s]: one JSON value at the head of [s] and the rest.
    [parse_array] and [parse_object] are entered after the first element (or
    key) is known to be there; they loop over the elements. *)
Fixpoint scan_once (fuel : nat) (s : str) : option (json * str) :=
  match fuel with
  | O => None
  | S fuel' =>
      match s with
      | [] => None
      | c :: s1 =>
          if (c =? 34)%N then
            match scanstring s1 with
            | Some (t, r) => Some (JString t, r)
            | None => None
            end
          else if (c =? 123)%N then
            match skip_ws s1 with
            | c' :: s2 =>
                if (c' =? 125)%N then Some (JObject [], s2)
                else parse_object fuel' [] (c' :: s2)
            | [] => None
            end
          else if (c =? 91)%N then
            match skip_ws s1 with
            | c' :: s2 =>
                if (c' =? 93)%N then Some (JArray [], s2)
                else parse_array fuel' [] (c' :: s2)
            | [] => None
            end
          else
            match scan_constant s with
            | Some r => Some r
            | None => scan_number s
            end
      end
  end

with parse_array (fuel : nat) (acc : list json) (s : str) : option (json * str) :=
  match fuel with
  | O => None
  | S fuel' =>
      match scan_once fuel' s with
      | None => None
      | Some (v, r) =>
          match skip_ws r with
          | c :: r1 =>
              if (c =? 93)%N then Some (JArray (rev (v :: acc)), r1)
              else if (c =? 44)%N then parse_array fuel' (v :: acc) (skip_ws r1)
              else None
          | [] => None
          end
      end
  end

with parse_object (fuel : nat) (acc : dict) (s : str) : option (json * str) :=
  match fuel with
  | O => None
  | S fuel' =>
      match s with
      | q :: s1 =>
          if (q =? 34)%N then
            match scanstring s1 with
            | None => None
            | Some (k, r) =>
                match skip_ws r with
                | c :: r1 =>
                    if (c =? 58)%N then
                      match scan_once fuel' (skip_ws r1) with
                      | None => None
                      | Some (v, r2) =>
                          let acc' := dict_set acc k v in
                          match skip_ws r2 with
                          | c' :: r3 =>
                              if (c' =? 125)%N then Some (JObject acc', r3)
                              else if (c' =? 44)%N then
                                parse_object fuel' acc' (skip_ws r3)
                              else None
                          | [] => None
                          end
                      end
                    else None
                | [] => None
                end
            end
          else None
      | [] => None
      end
  end.

(** [json_decode_with fuel s]: the value that the whole of [s] denotes, if
    there is one (leading and trailing whitespace allowed, nothing else
    after the value).  [json_decode] runs it with twice the length of the
    text and one more for fuel, which is enough (lemma
    [json_decode_fuel]). *)
Definition json_decode_with (fuel : nat) (s : str) : option json :=
  match scan_once fuel (skip_ws s) with
  | Some (v, r) => match skip_ws r with [] => Some v | _ :: _ => None end
  | None => None
  end.

Definition json_decode (s : str) : option json :=
  json_decode_with (2 * length (skip_ws s) + 1) s.

(** Text literals: the line feed and the double quote. *)
Definition LF : string := String (ascii_of_nat 10) EmptyString.
Definition DQ : string := String (ascii_of_nat 34) EmptyString.
Definition quoted (s : string) : string := (DQ ++ s ++ DQ)%string.

(** ** Exceptions and results *)

Inductive exn : Type :=
| JSONDecodeError
| KeyError (key : str)
| IndexError
| TypeError
| AttributeError
| UnicodeEncodeError           (* raised by [print], see below *)
| ServiceError (msg : str)     (* raised by a client library, with its text *)
| Exception (msg : str).       (* [raise Exception(msg)] of the program *)

(** [exn_str e]: [str(e)].  The program's own messages are exact and a
    [KeyError] shows its quoted key; the wording of the other messages of
    the interpreter is not part of the model and is rendered by the name of
    the exception class. *)
Definition exn_str (e : exn) : str :=
  match e with
  | JSONDecodeError => py "JSONDecodeError"
  | KeyError k => py "'" ++ k ++ py "'"
  | IndexError => py "IndexError"
  | TypeError => py "TypeError"
  | AttributeError => py "AttributeError"
  | UnicodeEncodeError => py "UnicodeEncodeError"
  | ServiceError m => m
  | Exception m => m
  end.

Inductive result (A : Type) : Type :=
| Ok (a : A)
| Raise (e : exn).

Arguments Ok {A} a.
Arguments Raise {A} e.

Definition rbind {A B} (r : result A) (k : A -> result B) : result B :=
  match r with
  | Ok a => k a
  | Raise e => Raise e
  end.

Declare Scope result_scope.
Delimit Scope result_scope with result.
Notation "x <- r ;; k" := (rbind r (fun x => k))
  (at level 100, r at next level, right associativity) : result_scope.
Notation "' p <- r ;; k" := (rbind r (fun p => k))
  (at level 100, p pattern, r at next level, right associativity) : result_scope.

(** [subscript v k]: [v[k]] with a text key. *)
Definition subscript (v : json) (k : string) : result json :=
  match v with
  | JObject d =>
      match dict_get d (py k) with
      | Some x => Ok x
      | None => Raise (KeyError (py k))
      end
  | _ => Raise TypeError
  end.

(** [subscript0 v]: [v[0]]. *)
Definition subscript0 (v : json) : result json :=
  match v with
  | JArray (x :: _) => Ok x
  | JArray [] => Raise IndexError
  | JString (c :: _) => Ok (JString [c])
  | JString [] => Raise IndexError
  | JObject _ => Raise (KeyError (py "0"))
  | _ => Raise TypeError
  end.

(** [iterate v]: the items that [for x in v] visits: the elements of a list,
    the characters of a text, the keys of a dict. *)
Definition iterate (v : json) : result (list json) :=
  match v with
  | JArray l => Ok l
  | JString s => Ok (map (fun c => JString [c]) s)
  | JObject d => Ok (map (fun kv => JString (fst kv)) d)
  | _ => Raise TypeError
  end.

(** [json_loads s]: [json.loads(s)] on a text. *)
Definition json_loads (s : str) : result json :=
  match json_decode s with
  | Some v => Ok v
  | None => Raise JSONDecodeError
  end.

(** [loads v]: [json.loads(v)] on a value that need not be a text. *)
Definition loads (v : json) : result json :=
  match v with
  | JString s => json_loads s
  | _ => Raise TypeError
  end.

(** ** The response parser ([parse_json_response]) *)

Definition FENCE_JSON : str := py "```json".
Definition FENCE : str := py "```".

(** The text that lines 129-136 bind to [content] before it is decoded:
    the inside of the first fenced block, or the text itself. *)
Definition fence_candidate (content : str) : str :=
  if contains FENCE_JSON content then
    let start := find content FENCE_JSON 0 + 7 in
    let end_ := find content FENCE start in
    strip (slice content start end_)
  else if contains FENCE content then
    let start := find content FENCE 0 + 3 in
    let end_ := find content FENCE start in
    strip (slice content start end_)
  else content.

(** The [try] block rebinds the parameter [content]; the handler of
    [json.JSONDecodeError] reads that same variable. *)
Definition parse_json_response (content : str) : result json :=
  let content := fence_candidate content in
  match json_loads content with
  | Ok v => Ok v
  | Raise JSONDecodeError => json_loads content
  | Raise e => Raise e
  end.

(** ** Standard output

    [print] encodes its text for standard output, which is UTF-8.  A text
    decoded from JSON may hold a surrogate code point (the decoder keeps an
    escape that is not half of a pair as it is); such a code point has no
    encoding, and [print] then raises [UnicodeEncodeError]. *)

Definition is_surrogate (c : N) : bool := ((55296 <=? c) && (c <=? 57343))%N.

Definition encodable (s : str) : bool :=
  forallb (fun c => negb (is_surrogate c)) s.

(** A value of the event put into an f-string: a text is put as it is, any
    other value by its [repr], which escapes what cannot be encoded. *)
Definition shown_encodable (v : json) : bool :=
  match v with
  | JString s => encodable s
  | _ => true
  end.

(** The pieces of a printed line: a literal of the program, a text of the
    event, a value of the event, the message of an exception ([str(e)]).
    The messages of exceptions are built by the interpreter and by the client
    libraries, which quote the texts they mention by [repr] or decode them
    from bytes: they are encodable. *)
Inductive piece : Type :=
| Lit (s : string)
| Text (s : str)
| Shown (v : json)
| Message (e : exn).

Definition piece_encodable (p : piece) : bool :=
  match p with
  | Lit _ => true
  | Text s => encodable s
  | Shown v => shown_encodable v
  | Message _ => true
  end.

Definition print (line : list piece) : result unit :=
  if forallb piece_encodable line then Ok tt else Raise UnicodeEncodeError.

(** The program prints seven lines.  Two of them hold a text of the event as
    it is and are part of the model: the first statement of
    [process_document] (line 146) and the handler of the inner [try] of
    [lambda_handler] (line 241).  The other five cannot raise and are left
    out: lines 46 and 250 print a literal and the message of an exception,
    line 170 a content type that the object store decoded from a header,
    line 202 an identifier of hexadecimal digits and hyphens, line 211 the
    output of [json.dumps], which is ASCII. *)

(** ** The outside world

    The object store, the extraction service, the record store, the packaged
    files and the libraries the program calls are parameters.  A call to a
    service is recorded in the history; what a service answers may depend on
    the history so far. *)

Definition bytes := list Byte.byte.

Inductive event : Type :=
| GetObject (bucket : json) (key : str)
| OpenFile (path : str)
| InvokeModel (prompt : str) (document : bytes) (media_type : str)
| Uuid4
| UtcNow
| PutItem (item : dict).

Definition history := list event.

Record services : Type := {
  (* s3_client.get_object and the read of its body: content, ContentType *)
  s3_get_object : history -> json -> str -> result (bytes * option str);
  (* hashlib.sha256(content).hexdigest() *)
  sha256_hexdigest : bytes -> str;
  (* len(PdfReader(BytesIO(content)).pages) *)
  pdf_page_count : bytes -> result nat;
  (* open(path).read() on a packaged file *)
  read_file : str -> result str;
  (* template.format(schema=json.dumps(schema, indent=2)) *)
  format_prompt : str -> json -> result str;
  (* bedrock_runtime.invoke_model and the read of the response body *)
  invoke_model : history -> str -> bytes -> str -> result str;
  (* str(uuid.uuid4()) *)
  uuid4 : history -> str;
  (* datetime.utcnow().isoformat() *)
  utcnow : history -> str;
  (* table.put_item(Item=record) *)
  put_item : history -> dict -> result unit;
  (* urllib.parse.unquote_plus *)
  unquote_plus : str -> str
}.

(** Computations that act on the world: the history is threaded through, and
    is kept when an exception is raised. *)
Definition M (A : Type) : Type := history -> result A * history.

Definition ret {A} (a : A) : M A := fun h => (Ok a, h).

Definition bind {A B} (m : M A) (k : A -> M B) : M B :=
  fun h =>
    match m h with
    | (Ok a, h') => k a h'
    | (Raise e, h') => (Raise e, h')
    end.

Definition lift {A} (r : result A) : M A := fun h => (r, h).

(** [call ev answer]: one call to a service; the answer is computed from the
    history before the call, and the call is recorded. *)
Definition call {A} (ev : event) (answer : history -> result A) : M A :=
  fun h => (answer h, h ++ [ev]).

(** [rewrap prefix m]: [try: m except Exception as e: raise
    Exception(prefix + str(e))]. *)
Definition rewrap {A} (prefix : string) (m : M A) : M A :=
  fun h =>
    match m h with
    | (Ok a, h') => (Ok a, h')
    | (Raise e, h') => (Raise (Exception (py prefix ++ exn_str e)), h')
    end.

Declare Scope world_scope.
Delimit Scope world_scope with world.
Notation "x <- m ;; k" := (bind m (fun x => k))
  (at level 100, m at next level, right associativity) : world_scope.
Notation "' p <- m ;; k" := (bind m (fun p => k))
  (at level 100, p pattern, m at next level, right associativity) : world_scope.

Definition SCHEMA_FILE : str := py "schema.json".
Definition PROMPT_FILE : str := py "prompt.txt".

Section Program.

Variable svc : services.

(** [calculate_file_hash] *)
Definition calculate_file_hash (content : bytes) : str :=
  sha256_hexdigest svc content.

(** [get_page_count]: the body of the [try], then the [except Exception]
    that turns any exception into [None]. *)
Definition get_page_count_try (document_content : bytes) (content_type : str)
  : result (option nat) :=
  if contains (py "pdf") (lower content_type) then
    (n <- pdf_page_count svc document_content ;; Ok (Some n))%result
  else Ok None.

Definition get_page_count (document_content : bytes) (content_type : str)
  : result (option nat) :=
  match get_page_count_try document_content content_type with
  | Ok v => Ok v
  | Raise _ => Ok None
  end.

(** [load_schema]: opens and decodes the packaged schema file. *)
Definition load_schema : M json :=
  rewrap "Failed to load schema from schema.json: "
    (text <- call (OpenFile SCHEMA_FILE) (fun _ => read_file svc SCHEMA_FILE) ;;
     lift (loads (JString text)))%world.

(** [load_prompt_template]: opens and reads the packaged prompt file. *)
Definition load_prompt_template : M str :=
  rewrap "Failed to load prompt from prompt.txt: "
    (call (OpenFile PROMPT_FILE) (fun _ => read_file svc PROMPT_FILE)).

(** The completion text handed to the parser; anything that is not a text
    makes the parser raise. *)
Definition parse_completion (content : json) : result json :=
  match content with
  | JString s => parse_json_response s
  | _ => Raise TypeError
  end.

(** Lines 113-119: the response body decoded, the text of its first content
    block, and that text parsed. *)
Definition read_completion (body : str) : result json :=
  (response_body <- loads (JString body) ;;
   blocks <- subscript response_body "content" ;;
   block <- subscript0 blocks ;;
   content <- subscript block "text" ;;
   parse_completion content)%result.

(** [invoke_bedrock_with_document] *)
Definition invoke_bedrock_with_document
  (prompt_text : str) (document_content : bytes) (media_type : str) : M json :=
  rewrap "Failed to invoke Bedrock with document: "
    (body <- call (InvokeModel prompt_text document_content media_type)
               (fun h => invoke_model svc h prompt_text document_content media_type) ;;
     lift (read_completion body))%world.

(** Lines 179-197: the fixed fields, the page count when there is one, then
    every extracted property. *)
Definition fixed_fields (record_id key : str) (bucket upload_time : json)
  (processing_time file_hash : str) (document_size : Z) (content_type : str) : dict :=
  [ (py "id", JString record_id);
    (py "document_name", JString key);
    (py "bucket", bucket);
    (py "upload_time", upload_time);
    (py "processing_time", JString processing_time);
    (py "file_hash", JString file_hash);
    (py "file_size", JInt document_size);
    (py "content_type", JString content_type) ].

Definition add_page_count (record : dict) (page_count : option nat) : dict :=
  match page_count with
  | Some n => dict_set record (py "page_count") (JInt (Z.of_nat n))
  | None => record
  end.

Definition merge_properties (record : dict) (items : list (str * json)) : dict :=
  fold_left (fun r kv => dict_set r (fst kv) (snd kv)) items record.

(** [extracted_properties.items()] *)
Definition items (v : json) : result (list (str * json)) :=
  match v with
  | JObject d => Ok d
  | _ => Raise AttributeError
  end.

(** [process_document] *)
Definition process_document (bucket : json) (key : str) (upload_time : json) : M dict :=
  (_ <- lift (print [Lit "Processing document: s3://"; Shown bucket; Lit "/"; Text key]) ;;
   '(document_content, ct) <-
     rewrap "Failed to download document from S3: "
       (call (GetObject bucket key) (fun h => s3_get_object svc h bucket key)) ;;
   let content_type :=
     match ct with Some t => t | None => py "application/octet-stream" end in
   let document_size := len document_content in
   let file_hash := calculate_file_hash document_content in
   page_count <- lift (get_page_count document_content content_type) ;;
   schema <- load_schema ;;
   prompt_template <- load_prompt_template ;;
   prompt_text <- lift (format_prompt svc prompt_template schema) ;;
   extracted_properties <-
     invoke_bedrock_with_document prompt_text document_content content_type ;;
   record_id <- call Uuid4 (fun h => Ok (uuid4 svc h)) ;;
   processing_time <- call UtcNow (fun h => Ok (utcnow svc h)) ;;
   let record :=
     add_page_count
       (fixed_fields record_id key bucket upload_time processing_time
          file_hash document_size content_type)
       page_count in
   props <- lift (items extracted_properties) ;;
   let record := merge_properties record props in
   _ <- rewrap "Failed to store record in DynamoDB: "
          (call (PutItem record) (fun h => put_item svc h record)) ;;
   ret record)%world.

(** *** The batch handler ([lambda_handler])

    The two lists the handler appends to, and the history. *)
Record state : Type := {
  results : list json;
  errors : list json;
  hist : history
}.

Definition success_entry (key : str) (record_id : json) : json :=
  JObject [ (py "status", JString (py "success"));
            (py "document", JString key);
            (py "record_id", record_id) ].

Definition document_error_entry (key : str) (e : exn) : json :=
  JObject [ (py "status", JString (py "error"));
            (py "document", JString key);
            (py "error", JString (exn_str e)) ].

Definition envelope_error_entry (e : exn) : json :=
  JObject [ (py "status", JString (py "error"));
            (py "error", JString (exn_str e)) ].

Definition add_result (st : state) (h : history) (entry : json) : state :=
  {| results := results st ++ [entry]; errors := errors st; hist := h |}.

Definition add_error (st : state) (h : history) (entry : json) : state :=
  {| results := results st; errors := errors st ++ [entry]; hist := h |}.

(** Lines 227-230: the three fields read from one document-change record,
    the key decoded. *)
Definition decode_key (raw : json) : result str :=
  match raw with
  | JString k => Ok (unquote_plus svc k)
  | _ => Raise AttributeError
  end.

Definition read_record (s3_record : json) : result (json * str * json) :=
  (s3 <- subscript s3_record "s3" ;;
   b <- subscript s3 "bucket" ;;
   bucket <- subscript b "name" ;;
   s3' <- subscript s3_record "s3" ;;
   o <- subscript s3' "object" ;;
   raw <- subscript o "key" ;;
   key <- decode_key raw ;;
   upload_time <- subscript s3_record "eventTime" ;;
   Ok (bucket, key, upload_time))%result.

(** Lines 239-246: the handler of the inner [try].  The message is printed
    before the entry is appended: when [print] raises, nothing is appended
    and its exception leaves the inner [try]. *)
Definition except_document (key : str) (e : exn) (st : state) (h : history)
  : option exn * state :=
  match print [Lit "Failed to process "; Text key; Lit ": "; Message e] with
  | Ok _ => (None, add_error st h (document_error_entry key e))
  | Raise e' => (Some e', {| results := results st; errors := errors st; hist := h |})
  end.

(** Lines 232-246: the inner [try]; an exception of [process_document] (or of
    the read of the record's id) becomes a failure entry with the key, unless
    the handler itself raises, and then that exception is the first
    component. *)
Definition handle_document (bucket : json) (key : str) (upload_time : json)
  (st : state) : option exn * state :=
  match process_document bucket key upload_time (hist st) with
  | (Ok result, h) =>
      match subscript (JObject result) "id" with
      | Ok record_id => (None, add_result st h (success_entry key record_id))
      | Raise e => except_document key e st h
      end
  | (Raise e, h) => except_document key e st h
  end.

(** Lines 226-246: the loop over the document-change records.  An exception
    raised outside the inner [try], or by its handler, leaves the loop; the
    lists keep what was appended before. *)
Fixpoint process_records (records : list json) (st : state) : option exn * state :=
  match records with
  | [] => (None, st)
  | s3_record :: rest =>
      match read_record s3_record with
      | Raise e => (Some e, st)
      | Ok (bucket, key, upload_time) =>
          match handle_document bucket key upload_time st with
          | (None, st') => process_records rest st'
          | (Some e, st') => (Some e, st')
          end
      end
  end.

(** Lines 220-226: the two decodings and the list to iterate. *)
Definition unwrap_envelope (sqs_record : json) : result (list json) :=
  (body <- subscript sqs_record "body" ;;
   sns_message <- loads body ;;
   message <- subscript sns_message "Message" ;;
   s3_event <- loads message ;;
   records <- subscript s3_event "Records" ;;
   iterate records)%result.

(** Lines 218-254: the outer [try] for one envelope. *)
Definition handle_envelope (st : state) (sqs_record : json) : state :=
  match unwrap_envelope sqs_record with
  | Raise e => add_error st (hist st) (envelope_error_entry e)
  | Ok records =>
      match process_records records st with
      | (None, st') => st'
      | (Some e, st') => add_error st' (hist st') (envelope_error_entry e)
      end
  end.

Definition handle_envelopes (envelopes : list json) (st : state) : state :=
  fold_left handle_envelope envelopes st.

(** The value returned; [body] is the object that the source serialises with
    [json.dumps]. *)
Record response : Type := {
  statusCode : Z;
  body : json
}.

Definition make_response (st : state) : response :=
  {| statusCode := match errors st with [] => 200 | _ :: _ => 207 end;
     body := JObject [ (py "processed", JInt (len (results st)));
                       (py "errors", JInt (len (errors st)));
                       (py "results", JArray (results st));
                       (py "errors_detail", JArray (errors st)) ] |}.

(** [lambda_handler] *)
Definition lambda_handler (event : json) : M response :=
  fun h =>
    match (records <- subscript event "Records" ;; iterate records)%result with
    | Raise e => (Raise e, h)
    | Ok envelopes =>
        let st := handle_envelopes envelopes
                    {| results := []; errors := []; hist := h |} in
        (Ok (make_response st), hist st)
    end.

End Program.

(** A batch as the queue delivers it. *)
Definition batch (envelopes : list json) : json :=
  JObject [ (py "Records", JArray envelopes) ].

(** ** Concrete worlds and batches

    A serialiser for building message texts, and one instance of the
    services, used to run the program on explicit inputs. *)

Module Fixture.

Definition hex_digit (n : N) : N := (if n <? 10 then 48 + n else 87 + n)%N.

Definition escape_char (c : N) : str :=
  (if (c =? 34) || (c =? 92) then [92; c]
   else if c =? 10 then [92; 110]
   else if is_surrogate c then
     [92; 117; hex_digit (c / 4096); hex_digit ((c / 256) mod 16);
      hex_digit ((c / 16) mod 16); hex_digit (c mod 16)]
   else [c])%N.

Fixpoint ndigits (fuel : nat) (n : N) (acc : str) : str :=
  match fuel with
  | O => acc
  | S f =>
      let acc' := (48 + n mod 10)%N :: acc in
      if (n / 10 =? 0)%N then acc' else ndigits f (n / 10)%N acc'
  end.

Definition render_nat (n : nat) : str := ndigits (S n) (N.of_nat n) [].

Definition render_int (z : Z) : str :=
  if z <? 0 then 45%N :: ndigits (S (Z.abs_nat z)) (Z.abs_N z) []
  else ndigits (S (Z.abs_nat z)) (Z.abs_N z) [].

(** [render v]: the JSON text of [v], for the values used in the batches
    below (of the control characters only the line feed is escaped; a
    surrogate code point is written as its escape). *)
Fixpoint render (v : json) : str :=
  match v with
  | JNull => py "null"
  | JBool true => py "true"
  | JBool false => py "false"
  | JInt z => render_int z
  | JFloat l => l
  | JString s => 34%N :: flat_map escape_char s ++ [34%N]
  | JArray l =>
      91%N ::
      (fix go (l : list json) : str :=
         match l with
         | [] => []
         | [x] => render x
         | x :: r => render x ++ 44%N :: go r
         end) l ++ [93%N]
  | JObject d =>
      123%N ::
      (fix go (d : list (str * json)) : str :=
         match d with
         | [] => []
         | [(k, x)] => (34%N :: flat_map escape_char k ++ [34%N]) ++ 58%N :: render x
         | (k, x) :: r =>
             (34%N :: flat_map escape_char k ++ [34%N]) ++ 58%N :: render x ++ 44%N :: go r
         end) d ++ [125%N]
  end.

(** A document-change record, and the envelope that wraps a list of them
    twice. *)
Definition s3_record (bucket key time : string) : json :=
  JObject [ (py "eventTime", JString (py time));
            (py "s3", JObject [ (py "bucket", JObject [ (py "name", JString (py bucket)) ]);
                                (py "object", JObject [ (py "key", JString (py key)) ]) ]) ].

(** A document-change record whose key is any text. *)
Definition keyed_record (bucket : string) (key : str) (time : string) : json :=
  JObject [ (py "eventTime", JString (py time));
            (py "s3", JObject [ (py "bucket", JObject [ (py "name", JString (py bucket)) ]);
                                (py "object", JObject [ (py "key", JString key) ]) ]) ].

Definition envelope (records : list json) : json :=
  JObject [ (py "body",
             JString (render (JObject [ (py "Message",
               JString (render (JObject [ (py "Records", JArray records) ]))) ]))) ].

(** An envelope whose body is not JSON. *)
Definition broken_envelope : json :=
  JObject [ (py "body", JString (py "not json")) ].

(** The completion of the extraction service, as the response body holds
    it. *)
Definition completion_body (text : str) : str :=
  render (JObject [ (py "content", JArray [ JObject [ (py "text", JString text) ] ]) ]).

Definition fenced_answer : str :=
  py ("```json" ++ LF ++ "{" ++ quoted "title" ++ ": " ++ quoted "Invoice" ++ ", "
        ++ quoted "bucket" ++ ": " ++ quoted "override" ++ "}" ++ LF ++ "```").

Definition plus_to_space (s : str) : str :=
  map (fun c => if (c =? 43)%N then 32%N else c) s.

(** The object store has every key but [missing.pdf]; [empty.txt] is an empty
    text file, for which the extraction service fails; [prose.pdf] gets a
    completion that is not JSON.  The other documents get [fenced_answer]. *)
Definition world : services :=
  {| s3_get_object := fun _ _ key =>
       if str_eqb key (py "missing.pdf") then Raise (ServiceError (py "NoSuchKey"))
       else if str_eqb key (py "empty.txt") then Ok ([], Some (py "text/plain"))
       else if str_eqb key (py "prose.pdf") then Ok ([Byte.x00], Some (py "application/pdf"))
       else Ok ([Byte.x25; Byte.x50], Some (py "application/pdf"));
     sha256_hexdigest := fun content => render_nat (List.length content);
     pdf_page_count := fun content =>
       match content with
       | [_] => Raise (ServiceError (py "not a PDF"))
       | _ => Ok 2%nat
       end;
     read_file := fun path =>
       if str_eqb path SCHEMA_FILE then Ok (py "{}") else Ok (py "Extract {schema}");
     format_prompt := fun template _ => Ok template;
     invoke_model := fun _ _ content _ =>
       match content with
       | [] => Raise (ServiceError (py "ModelError"))
       | [_] => Ok (completion_body (py "I could not read it"))
       | _ => Ok (completion_body fenced_answer)
       end;
     uuid4 := fun h => py "uuid-" ++ render_nat (List.length h);
     utcnow := fun _ => py "2024-01-01T00:00:00";
     put_item := fun _ _ => Ok tt;
     unquote_plus := plus_to_space |}.

End Fixture.


(** ** Vocabulary of the statements *)

(** [no_match_before sub s n]: [sub] starts at none of the first [n] offsets
    of [s]. *)
Fixpoint no_match_before (sub s : str) (n : nat) : bool :=
  match n with
  | O => true
  | S n' =>
      negb (startswith sub s)
      && match s with
         | [] => true
         | _ :: s' => no_match_before sub s' n'
         end
  end.

(** The texts of the parser's examples; [a1] is the object they denote. *)
Module Examples.

Definition tagged_block : str :=
  py ("```json" ++ LF ++ "{" ++ quoted "a" ++ ":1}" ++ LF ++ "```").

Definition prose_block : str :=
  py ("here is the result: ```" ++ LF ++ "{" ++ quoted "a" ++ ":1}" ++ LF ++ "``` thanks").

Definition raw_object : str := py ("{" ++ quoted "a" ++ ":1}").

Definition not_json : str := py "not json at all".

Definition a1 : json := JObject [ (py "a", JInt 1) ].

(** An opening tagged fence that is never closed. *)
Definition unclosed_block : str := py ("```json{" ++ quoted "a" ++ ":1}").

(** A JSON object one of whose texts holds a fenced block. *)
Definition object_with_fence : str :=
  py ("{" ++ quoted "code" ++ ": " ++ quoted "```x```" ++ "}").

End Examples.

(** What a history records: the items written to the record store, the
    packaged files opened, the objects fetched. *)
Definition put_items (h : history) : list dict :=
  flat_map (fun ev => match ev with PutItem item => [item] | _ => [] end) h.

Definition opened (h : history) : list str :=
  flat_map (fun ev => match ev with OpenFile path => [path] | _ => [] end) h.

Definition fetched (h : history) : list (json * str) :=
  flat_map (fun ev => match ev with GetObject b k => [(b, k)] | _ => [] end) h.

(** The stage that the message of a failure of [process_document] names. *)
Inductive stage : Type := Fetch | Extraction | Persistence.

Definition stage_of (e : exn) : option stage :=
  match e with
  | Exception m =>
      if startswith (py "Failed to download document from S3: ") m then Some Fetch
      else if startswith (py "Failed to invoke Bedrock with document: ") m then Some Extraction
      else if startswith (py "Failed to store record in DynamoDB: ") m then Some Persistence
      else None
  | _ => None
  end.

(** A document reference: bucket, decoded key, upload time. *)
Definition docref : Type := (json * str * json)%type.

Definition doc_key (d : docref) : str := snd (fst d).
Definition doc_location (d : docref) : json * str := (fst (fst d), snd (fst d)).

Section Vocabulary.

Variable svc : services.

(** The records of an envelope before the first one whose fields cannot be
    read; and the exception of that one. *)
Fixpoint readable_prefix (records : list json) : list docref :=
  match records with
  | [] => []
  | r :: rest =>
      match read_record svc r with
      | Ok d => d :: readable_prefix rest
      | Raise _ => []
      end
  end.

Fixpoint first_unreadable (records : list json) : option exn :=
  match records with
  | [] => None
  | r :: rest =>
      match read_record svc r with
      | Ok _ => first_unreadable rest
      | Raise e => Some e
      end
  end.

(** Every record of an envelope whose fields can be read, reached or not. *)
Definition readable (records : list json) : list docref :=
  flat_map (fun r => match read_record svc r with Ok d => [d] | Raise _ => [] end)
    records.

(** The records for which the inner [try] runs to its end: those before the
    first one whose fields cannot be read or whose key cannot be printed;
    and the exception with which the loop ends at that one. *)
Fixpoint completed_prefix (records : list json) : list docref :=
  match records with
  | [] => []
  | r :: rest =>
      match read_record svc r with
      | Ok d => if encodable (doc_key d) then d :: completed_prefix rest else []
      | Raise _ => []
      end
  end.

Fixpoint loop_exit (records : list json) : option exn :=
  match records with
  | [] => None
  | r :: rest =>
      match read_record svc r with
      | Ok d => if encodable (doc_key d) then loop_exit rest else Some UnicodeEncodeError
      | Raise e => Some e
      end
  end.

(** The documents of an envelope up to the first record whose fields cannot
    be read, the exception of the decoding of the envelope or of that
    record, if any, and all the documents the envelope names. *)
Definition attempted (sqs_record : json) : list docref :=
  match unwrap_envelope sqs_record with
  | Ok records => readable_prefix records
  | Raise _ => []
  end.

Definition envelope_failure (sqs_record : json) : option exn :=
  match unwrap_envelope sqs_record with
  | Ok records => first_unreadable records
  | Raise e => Some e
  end.

Definition named (sqs_record : json) : list docref :=
  match unwrap_envelope sqs_record with
  | Ok records => readable records
  | Raise _ => []
  end.

Definition failed_envelopes (envelopes : list json) : nat :=
  length (filter (fun env => match envelope_failure env with
                             | Some _ => true
                             | None => false
                             end) envelopes).

Definition failures (envelopes : list json) : list exn :=
  flat_map (fun env => match envelope_failure env with
                       | Some e => [e]
                       | None => []
                       end) envelopes.

(** The documents of an envelope for which the inner [try] runs to its end,
    and the exception that ends the envelope's [try] block early, if any. *)
Definition completed (sqs_record : json) : list docref :=
  match unwrap_envelope sqs_record with
  | Ok records => completed_prefix records
  | Raise _ => []
  end.

Definition envelope_exit (sqs_record : json) : option exn :=
  match unwrap_envelope sqs_record with
  | Ok records => loop_exit records
  | Raise e => Some e
  end.

Definition exits (envelopes : list json) : list exn :=
  flat_map (fun env => match envelope_exit env with
                       | Some e => [e]
                       | None => []
                       end) envelopes.

(** Every key of the attempted documents of a batch can be printed. *)
Definition keys_printable (envelopes : list json) : bool :=
  forallb (fun d => encodable (doc_key d)) (flat_map attempted envelopes).

(** The inner [try] over a list of document references. *)
Definition handle_documents (docs : list docref) (st : state) : state :=
  fold_left
    (fun st d => snd (handle_document svc (fst (fst d)) (snd (fst d)) (snd d) st))
    docs st.

(** The runs of [process_document] on a list of documents, one after the
    other, each from the history that the runs before it left: every
    document with what its run returned or raised, and the history in the
    end. *)
Fixpoint outcomes (docs : list docref) (h : history) : list (docref * result dict) :=
  match docs with
  | [] => []
  | d :: rest =>
      let run := process_document svc (fst (fst d)) (snd (fst d)) (snd d) h in
      (d, fst run) :: outcomes rest (snd run)
  end.

Fixpoint history_after (docs : list docref) (h : history) : history :=
  match docs with
  | [] => h
  | d :: rest =>
      history_after rest (snd (process_document svc (fst (fst d)) (snd (fst d)) (snd d) h))
  end.

(** The state in which the handler ends on a batch. *)
Definition final_state (envelopes : list json) (h : history) : state :=
  handle_envelopes svc envelopes {| results := []; errors := []; hist := h |}.

End Vocabulary.

(** The [document] field of an entry of the result lists. *)
Definition entry_document (entry : json) : option json :=
  match entry with
  | JObject d => dict_get d (py "document")
  | _ => None
  end.

Definition entry_status (entry : json) : option json :=
  match entry with
  | JObject d => dict_get d (py "status")
  | _ => None
  end.

(** The response that carries the two lists. *)
Definition response_of (rs es : list json) : response :=
  {| statusCode := match es with [] => 200 | _ :: _ => 207 end;
     body := JObject [ (py "processed", JInt (len rs));
                       (py "errors", JInt (len es));
                       (py "results", JArray rs);
                       (py "errors_detail", JArray es) ] |}.

(** [grows st st' rs es]: from [st] to [st'] the two lists were extended by
    [rs] and [es]. *)
Definition grows (st st' : state) (rs es : list json) : Prop :=
  results st' = results st ++ rs /\ errors st' = errors st ++ es.

(** Whether a run of [process_document] returned or raised. *)
Definition returned (o : docref * result dict) : bool :=
  match snd o with
  | Ok _ => true
  | Raise _ => false
  end.

Definition raised (o : docref * result dict) : bool := negb (returned o).

(** [reports o entry]: [entry] is the entry of the run [o]: the success
    entry with the document's key and the [id] of the record returned, or the
    failure entry with the document's key and the exception raised. *)
Definition reports (o : docref * result dict) (entry : json) : Prop :=
  match snd o with
  | Ok record =>
      exists record_id,
        dict_get record (py "id") = Some record_id
        /\ entry = success_entry (doc_key (fst o)) record_id
  | Raise e => entry = document_error_entry (doc_key (fst o)) e
  end.

(** Whether an entry has a [document] field. *)
Definition has_document (entry : json) : bool :=
  match entry_document entry with
  | Some _ => true
  | None => false
  end.

Definition without_document (entry : json) : bool := negb (has_document entry).

(** The entries of a list of runs: the success entries are those of the runs
    that returned, in their order, and the failure entries those of the runs
    that raised, in their order. *)
Definition document_entries (runs : list (docref * result dict)) (rs es : list json)
  : Prop :=
  Forall2 reports (filter returned runs) rs
  /\ Forall2 reports (filter raised runs) es.

Section Entries.

Variable svc : services.

(** The entries that a batch adds to the two lists when it is handled from
    the history [h]: those of the runs of [process_document] on its attempted
    documents, and one entry without a document, in their order, for each
    envelope whose [try] block ended early. *)
Definition batch_entries (envelopes : list json) (h : history) (rs es : list json)
  : Prop :=
  document_entries (outcomes svc (flat_map (attempted svc) envelopes) h)
    rs (filter has_document es)
  /\ filter without_document es = map envelope_error_entry (failures svc envelopes).

End Entries.

(** Whether the first line of [process_document] can be printed. *)
Definition printable_document (bucket : json) (key : str) : bool :=
  shown_encodable bucket && encodable key.

(** The documents that pass that line, which are those then fetched. *)
Definition fetchable (d : docref) : bool :=
  printable_document (fst (fst d)) (doc_key d).

(** The number of times a packaged file was opened. *)
Definition opens (path : str) (h : history) : nat :=
  length (filter (str_eqb path) (opened h)).

(** The batches on which the statements are run. *)
Module Batches.

Import Fixture.

(** Three documents of one envelope, the second of which cannot be
    fetched; an envelope that is not JSON; an envelope whose document gets a
    completion that is not JSON. *)
Definition mixed : list json :=
  [ envelope [ s3_record "b" "a+b.pdf" "t0";
               s3_record "b" "missing.pdf" "t0";
               s3_record "b" "c.pdf" "t0" ];
    broken_envelope;
    envelope [ s3_record "b" "prose.pdf" "t1" ] ].

(** A record without fields between two documents. *)
Definition unreadable_sibling : json :=
  envelope [ s3_record "b" "a.pdf" "t0"; JObject []; s3_record "b" "c.pdf" "t0" ].

(** A record without fields, then a document. *)
Definition skipping : list json :=
  [ envelope [ JObject []; s3_record "b" "c.pdf" "t0" ] ].

(** Two documents that are both stored. *)
Definition two_documents : list json :=
  [ envelope [ s3_record "b" "a.pdf" "t0"; s3_record "b" "c.pdf" "t0" ] ].

(** A key that holds a surrogate code point on its own, as the escape
    [\ud800] decodes. *)
Definition lone_surrogate_key : str := 55296%N :: py ".pdf".

(** A document with that key, then a sibling; and a second envelope. *)
Definition unprintable_key : list json :=
  [ envelope [ keyed_record "b" lone_surrogate_key "t0"; s3_record "b" "c.pdf" "t0" ];
    envelope [ s3_record "b" "a.pdf" "t0" ] ].

End Batches.

(** The reading of the specification's sentence on the result: the handler
    returns, and each document that the batch names has an entry with its
    key in one of the two lists. *)
Definition every_document_described (svc : services) (envelopes : list json)
  (h : history) : Prop :=
  exists rs es h',
    lambda_handler svc (batch envelopes) h = (Ok (response_of rs es), h')
    /\ forall d, In d (flat_map (named svc) envelopes) ->
         exists entry, In entry (rs ++ es)
                       /\ entry_document entry = Some (JString (doc_key d)).

(** The reading of the specification's sentence on the templates: in one run
    of the handler each packaged file is opened at most once. *)
Definition loaded_once (svc : services) (envelopes : list json) : Prop :=
  (opens SCHEMA_FILE (snd (lambda_handler svc (batch envelopes) [])) <= 1)%nat
  /\ (opens PROMPT_FILE (snd (lambda_handler svc (batch envelopes) [])) <= 1)%nat.

(** An envelope that decodes has only readable records. *)
Definition records_readable (svc : services) (env : json) : bool :=
  match unwrap_envelope env with
  | Ok records =>
      match first_unreadable svc records with
      | None => true
      | Some _ => false
      end
  | Raise _ => true
  end.



(** ** Vocabulary of the further properties *)

(** The invocations of the extraction service that a history records. *)
Definition invoked (h : history) : list (str * bytes * str) :=
  flat_map (fun ev => match ev with
                      | InvokeModel p d m => [(p, d, m)]
                      | _ => []
                      end) h.

(** The calls that one run of [process_document] makes when every step
    succeeds, in their order. *)
Definition full_run (bucket : json) (key prompt : str) (content : bytes)
  (media_type : str) (record : dict) : list event :=
  [ GetObject bucket key; OpenFile SCHEMA_FILE; OpenFile PROMPT_FILE;
    InvokeModel prompt content media_type; Uuid4; UtcNow; PutItem record ].

(** The [document] fields of the entries that have one, in order. *)
Definition documents_of (entries : list json) : list json :=
  flat_map (fun e => match entry_document e with Some d => [d] | None => [] end)
    entries.

(** [substring x s]: [x] is a contiguous part of [s]. *)
Definition substring (x s : str) : Prop := exists a b, s = a ++ x ++ b.

(** [prepend rs es st]: [st] with [rs] and [es] put before its two lists. *)
Definition prepend (rs es : list json) (st : state) : state :=
  {| results := rs ++ results st; errors := es ++ errors st; hist := hist st |}.

(** The texts of the keys of a list of document references. *)
Definition key_values (docs : list docref) : list json :=
  map (fun d => JString (doc_key d)) docs.

(** [stored_in svc written entry]: [entry] is a success entry that reports
    the [id] of one of the records [written], which the record store
    accepted. *)
Definition stored_in (svc : services) (written : list dict) (entry : json) : Prop :=
  exists key record record_id,
    entry = success_entry key record_id
    /\ dict_get record (py "id") = Some record_id
    /\ In record written
    /\ exists h0, put_item svc h0 record = Ok tt.

(** [writes_match svc h st]: the writes made since [h] account for the
    success entries of [st]. *)
Definition writes_match (svc : services) (h : history) (st : state) : Prop :=
  exists written,
    put_items (hist st) = put_items h ++ written
    /\ Forall (stored_in svc written) (results st)
    /\ (length (results st) <= length written <= length (results st) + length (errors st))%nat.

(** [within_budget h st]: since [h], no more writes than invocations and no
    more invocations than fetches. *)
Definition within_budget (h : history) (st : state) : Prop :=
  exists calls writes,
    invoked (hist st) = invoked h ++ calls
    /\ put_items (hist st) = put_items h ++ writes
    /\ (length writes <= length calls
        <= length (fetched (hist st)) - length (fetched h))%nat
    /\ (length (fetched h) <= length (fetched (hist st)))%nat.

(** Two more worlds: one whose extraction service answers with a JSON list,
    one whose schema file cannot be read. *)
Module Worlds.

Import Fixture.

Definition list_answer : services :=
  {| s3_get_object := s3_get_object world;
     sha256_hexdigest := sha256_hexdigest world;
     pdf_page_count := pdf_page_count world;
     read_file := read_file world;
     format_prompt := format_prompt world;
     invoke_model := fun _ _ _ _ => Ok (completion_body (py "[1, 2]"));
     uuid4 := uuid4 world;
     utcnow := utcnow world;
     put_item := put_item world;
     unquote_plus := unquote_plus world |}.

Definition no_schema : services :=
  {| s3_get_object := s3_get_object world;
     sha256_hexdigest := sha256_hexdigest world;
     pdf_page_count := pdf_page_count world;
     read_file := fun path =>
       if str_eqb path SCHEMA_FILE then Raise (ServiceError (py "No such file"))
       else read_file world path;
     format_prompt := format_prompt world;
     invoke_model := invoke_model world;
     uuid4 := uuid4 world;
     utcnow := utcnow world;
     put_item := put_item world;
     unquote_plus := unquote_plus world |}.

End Worlds.

(** * Properties *)

(** ** Text search and slices *)

Lemma len_app {A} (a b : list A) : len (a ++ b) = len a + len b.
Proof. unfold len. rewrite length_app. lia. Qed.

Lemma len_nonneg {A} (a : list A) : 0 <= len a.
Proof. unfold len. lia. Qed.

Lemma startswith_app (sub t : str) : startswith sub (sub ++ t) = true.
Proof.
  induction sub as [|c sub IH]; simpl; [reflexivity|].
  now rewrite N.eqb_refl, IH.
Qed.

Lemma find_from_unfold (sub s : str) (i : nat) :
  find_from sub s i =
  if startswith sub s then Some i
  else match s with [] => None | _ :: s' => find_from sub s' (S i) end.
Proof. destruct s; reflexivity. Qed.

Lemma find_from_first (sub : str) :
  forall (pre s : str) (i : nat),
    no_match_before sub (pre ++ s) (length pre) = true ->
    startswith sub s = true ->
    find_from sub (pre ++ s) i = Some (i + length pre)%nat.
Proof.
  induction pre as [|c pre IH]; intros s i Hnone Hs.
  - simpl. rewrite find_from_unfold, Hs. f_equal. lia.
  - simpl in Hnone. apply andb_true_iff in Hnone as [Hhere Hlater].
    apply negb_true_iff in Hhere.
    change ((c :: pre) ++ s) with (c :: (pre ++ s)).
    rewrite find_from_unfold, Hhere, (IH s (S i) Hlater Hs).
    f_equal. simpl. lia.
Qed.

Lemma find_from_none (sub : str) :
  forall (s : str) (i i' : nat),
    find_from sub s i = None -> find_from sub s i' = None.
Proof.
  induction s as [|c s IH]; intros i i' H;
    rewrite find_from_unfold in *; destruct (startswith sub _); try discriminate; eauto.
Qed.

Lemma find_at_zero (s sub : str) (j : nat) :
  find_from sub s 0 = Some j -> find s sub 0 = Z.of_nat j.
Proof.
  intros H. unfold find, norm_index. simpl.
  destruct (len s <? 0) eqn:E.
  - apply Z.ltb_lt in E. pose proof (len_nonneg s). lia.
  - now rewrite H.
Qed.

Lemma find_after_prefix (a r sub : str) :
  find (a ++ r) sub (len a) =
  match find_from sub r (length a) with
  | Some i => Z.of_nat i
  | None => -1
  end.
Proof.
  unfold find, norm_index.
  pose proof (len_nonneg a) as Ha. pose proof (len_nonneg r) as Hr.
  destruct (len a <? 0) eqn:E; [apply Z.ltb_lt in E; lia|].
  rewrite len_app.
  destruct (len a + len r <? len a) eqn:E'; [apply Z.ltb_lt in E'; lia|].
  unfold len. rewrite Nat2Z.id.
  rewrite skipn_app, skipn_all, Nat.sub_diag. reflexivity.
Qed.

Lemma slice_between (a m b : str) :
  slice (a ++ m ++ b) (len a) (len a + len m) = m.
Proof.
  unfold slice, norm_index.
  pose proof (len_nonneg a). pose proof (len_nonneg m). pose proof (len_nonneg b).
  rewrite !len_app.
  destruct (len a <? 0) eqn:E1; [apply Z.ltb_lt in E1; lia|].
  destruct (len a + len m <? 0) eqn:E2; [apply Z.ltb_lt in E2; lia|].
  rewrite !Z.min_r by lia.
  replace (len a + len m - len a) with (len m) by lia.
  unfold len. rewrite !Nat2Z.id.
  rewrite skipn_app, skipn_all, Nat.sub_diag. simpl.
  rewrite firstn_app, firstn_all, Nat.sub_diag. simpl. apply app_nil_r.
Qed.

Lemma slice_to_minus_one (a r : str) :
  slice (a ++ r) (len a) (-1) = removelast r.
Proof.
  unfold slice, norm_index.
  pose proof (len_nonneg a). pose proof (len_nonneg r).
  rewrite len_app.
  destruct (len a <? 0) eqn:E1; [apply Z.ltb_lt in E1; lia|].
  change (-1 <? 0) with true. cbv iota.
  rewrite (Z.min_r _ (len a)) by lia.
  rewrite Z.min_r by lia.
  replace (Z.to_nat (len a)) with (length a) by (unfold len; lia).
  rewrite skipn_app, skipn_all, Nat.sub_diag. simpl.
  rewrite removelast_firstn_len. f_equal. unfold len. lia.
Qed.

Lemma startswith_prefix (a b s : str) :
  startswith (a ++ b) s = true -> startswith a s = true.
Proof.
  revert s. induction a as [|c a IH]; intros s H; [reflexivity|].
  destruct s as [|d s]; simpl in *; [discriminate|].
  apply andb_true_iff in H as [H1 H2]. now rewrite H1, (IH _ H2).
Qed.

Lemma contains_longer (a b s : str) :
  contains a s = false -> contains (a ++ b) s = false.
Proof.
  unfold contains. generalize 0%nat.
  induction s as [|c s IH]; intros i; rewrite !(find_from_unfold _ _ i).
  - destruct (startswith a []) eqn:E; [discriminate|].
    destruct (startswith (a ++ b) []) eqn:E'; [|reflexivity].
    apply startswith_prefix in E'. congruence.
  - destruct (startswith a (c :: s)) eqn:E; [discriminate|].
    destruct (startswith (a ++ b) (c :: s)) eqn:E'.
    + apply startswith_prefix in E'. congruence.
    + apply IH.
Qed.

Lemma contains_first (sub pre s : str) :
  no_match_before sub (pre ++ s) (length pre) = true ->
  startswith sub s = true ->
  contains sub (pre ++ s) = true /\ find (pre ++ s) sub 0 = len pre.
Proof.
  intros Hnone Hs.
  pose proof (find_from_first sub pre s 0 Hnone Hs) as H.
  split.
  - unfold contains. now rewrite H.
  - now rewrite (find_at_zero _ _ _ H).
Qed.

Lemma find_closing (a mid post : str) :
  no_match_before FENCE (mid ++ FENCE ++ post) (length mid) = true ->
  find (a ++ mid ++ FENCE ++ post) FENCE (len a) = len a + len mid.
Proof.
  intros H. rewrite find_after_prefix.
  rewrite (find_from_first FENCE mid (FENCE ++ post) (length a) H (startswith_app _ _)).
  unfold len. lia.
Qed.

Lemma find_no_closing (a rest : str) :
  contains FENCE rest = false -> find (a ++ rest) FENCE (len a) = -1.
Proof.
  unfold contains. intros H. rewrite find_after_prefix.
  destruct (find_from FENCE rest 0) eqn:E; [discriminate|].
  now rewrite (find_from_none _ _ _ (length a) E).
Qed.

(** ** The response parser *)

(** The handler of the decode error decodes the same text again. *)
Lemma parse_json_response_decodes (content : str) :
  parse_json_response content = json_loads (fence_candidate content).
Proof.
  unfold parse_json_response.
  destruct (json_loads (fence_candidate content)) as [v|e] eqn:E; [reflexivity|].
  destruct e; (reflexivity || assumption).
Qed.

Lemma candidate_tagged (pre mid post : str) :
  no_match_before FENCE_JSON (pre ++ FENCE_JSON ++ mid ++ FENCE ++ post) (length pre) = true ->
  no_match_before FENCE (mid ++ FENCE ++ post) (length mid) = true ->
  fence_candidate (pre ++ FENCE_JSON ++ mid ++ FENCE ++ post) = strip mid.
Proof.
  intros H1 H2. unfold fence_candidate.
  destruct (contains_first FENCE_JSON pre _ H1 (startswith_app _ _)) as [Hc Hf].
  rewrite Hc, Hf.
  replace (len pre + 7) with (len (pre ++ FENCE_JSON)) by (rewrite len_app; reflexivity).
  rewrite !(app_assoc pre FENCE_JSON).
  rewrite (find_closing _ _ _ H2), slice_between. reflexivity.
Qed.

Lemma candidate_generic (pre mid post : str) :
  contains FENCE_JSON (pre ++ FENCE ++ mid ++ FENCE ++ post) = false ->
  no_match_before FENCE (pre ++ FENCE ++ mid ++ FENCE ++ post) (length pre) = true ->
  no_match_before FENCE (mid ++ FENCE ++ post) (length mid) = true ->
  fence_candidate (pre ++ FENCE ++ mid ++ FENCE ++ post) = strip mid.
Proof.
  intros H0 H1 H2. unfold fence_candidate. rewrite H0.
  destruct (contains_first FENCE pre _ H1 (startswith_app _ _)) as [Hc Hf].
  rewrite Hc, Hf.
  replace (len pre + 3) with (len (pre ++ FENCE)) by (rewrite len_app; reflexivity).
  rewrite !(app_assoc pre FENCE).
  rewrite (find_closing _ _ _ H2), slice_between. reflexivity.
Qed.

Lemma candidate_plain (content : str) :
  contains FENCE content = false -> fence_candidate content = content.
Proof.
  intros H. unfold fence_candidate.
  change FENCE_JSON with (FENCE ++ py "json").
  now rewrite (contains_longer _ _ _ H), H.
Qed.

(** C6: the parser decodes the inside of the first block opened by a tagged
    fence and closed by the next fence, else the inside of the first pair of
    plain fences, else the text as it is; it returns the object [a1] on the
    three example texts that hold it, and raises a decode error on a text
    that is not JSON. *)
Theorem parse_json_response_fence_rules :
  (forall pre mid post : str,
      no_match_before FENCE_JSON (pre ++ FENCE_JSON ++ mid ++ FENCE ++ post) (length pre) = true ->
      no_match_before FENCE (mid ++ FENCE ++ post) (length mid) = true ->
      parse_json_response (pre ++ FENCE_JSON ++ mid ++ FENCE ++ post)
      = json_loads (strip mid))
  /\ (forall pre mid post : str,
      contains FENCE_JSON (pre ++ FENCE ++ mid ++ FENCE ++ post) = false ->
      no_match_before FENCE (pre ++ FENCE ++ mid ++ FENCE ++ post) (length pre) = true ->
      no_match_before FENCE (mid ++ FENCE ++ post) (length mid) = true ->
      parse_json_response (pre ++ FENCE ++ mid ++ FENCE ++ post)
      = json_loads (strip mid))
  /\ (forall content : str,
      contains FENCE content = false ->
      parse_json_response content = json_loads content)
  /\ parse_json_response Examples.tagged_block = Ok Examples.a1
  /\ parse_json_response Examples.prose_block = Ok Examples.a1
  /\ parse_json_response Examples.raw_object = Ok Examples.a1
  /\ parse_json_response Examples.not_json = Raise JSONDecodeError.
Proof.
  split; [|split; [|split]].
  - intros pre mid post H1 H2.
    now rewrite parse_json_response_decodes, candidate_tagged.
  - intros pre mid post H0 H1 H2.
    now rewrite parse_json_response_decodes, candidate_generic.
  - intros content H.
    now rewrite parse_json_response_decodes, candidate_plain.
  - split; [|split; [|split]]; vm_compute; reflexivity.
Qed.

(** The three rules of [parse_json_response_fence_rules] at the example
    texts. *)
Lemma parse_json_response_fence_rules_witness :
  parse_json_response Examples.tagged_block
  = json_loads (strip (py (LF ++ "{" ++ quoted "a" ++ ":1}" ++ LF)))
  /\ parse_json_response Examples.prose_block
     = json_loads (strip (py (LF ++ "{" ++ quoted "a" ++ ":1}" ++ LF)))
  /\ parse_json_response Examples.raw_object = json_loads Examples.raw_object.
Proof.
  destruct parse_json_response_fence_rules as (Htag & Hgen & Hraw & _).
  split; [|split].
  - apply (Htag [] (py (LF ++ "{" ++ quoted "a" ++ ":1}" ++ LF)) []);
      vm_compute; reflexivity.
  - apply (Hgen (py "here is the result: ")
             (py (LF ++ "{" ++ quoted "a" ++ ":1}" ++ LF)) (py " thanks"));
      vm_compute; reflexivity.
  - apply Hraw; vm_compute; reflexivity.
Defined.

(** C10: when an opening fence has no closing fence after it, the search for
    the end yields -1 and the candidate is the text after the marker without
    its last character; the unclosed tagged block that holds the object [a1]
    raises a decode error although the text after the marker decodes. *)
Theorem unclosed_fence_loses_last_character :
  (forall pre rest : str,
      no_match_before FENCE_JSON (pre ++ FENCE_JSON ++ rest) (length pre) = true ->
      contains FENCE rest = false ->
      find (pre ++ FENCE_JSON ++ rest) FENCE
        (find (pre ++ FENCE_JSON ++ rest) FENCE_JSON 0 + 7) = -1
      /\ fence_candidate (pre ++ FENCE_JSON ++ rest) = strip (removelast rest))
  /\ (forall pre rest : str,
      contains FENCE_JSON (pre ++ FENCE ++ rest) = false ->
      no_match_before FENCE (pre ++ FENCE ++ rest) (length pre) = true ->
      contains FENCE rest = false ->
      find (pre ++ FENCE ++ rest) FENCE
        (find (pre ++ FENCE ++ rest) FENCE 0 + 3) = -1
      /\ fence_candidate (pre ++ FENCE ++ rest) = strip (removelast rest))
  /\ (parse_json_response Examples.unclosed_block = Raise JSONDecodeError
      /\ json_loads (skipn 7 Examples.unclosed_block) = Ok Examples.a1).
Proof.
  split; [|split].
  - intros pre rest H1 H2. unfold fence_candidate.
    destruct (contains_first FENCE_JSON pre _ H1 (startswith_app _ _)) as [Hc Hf].
    rewrite Hc, Hf.
    replace (len pre + 7) with (len (pre ++ FENCE_JSON)) by (rewrite len_app; reflexivity).
    rewrite !(app_assoc pre FENCE_JSON).
    rewrite (find_no_closing _ _ H2), slice_to_minus_one. split; reflexivity.
  - intros pre rest H0 H1 H2. unfold fence_candidate. rewrite H0.
    destruct (contains_first FENCE pre _ H1 (startswith_app _ _)) as [Hc Hf].
    rewrite Hc, Hf.
    replace (len pre + 3) with (len (pre ++ FENCE)) by (rewrite len_app; reflexivity).
    rewrite !(app_assoc pre FENCE).
    rewrite (find_no_closing _ _ H2), slice_to_minus_one. split; reflexivity.
  - split; vm_compute; reflexivity.
Qed.

(** The first rule of [unclosed_fence_loses_last_character] at the unclosed
    block. *)
Lemma unclosed_fence_loses_last_character_witness :
  find Examples.unclosed_block FENCE (find Examples.unclosed_block FENCE_JSON 0 + 7) = -1
  /\ fence_candidate Examples.unclosed_block
     = strip (removelast (py ("{" ++ quoted "a" ++ ":1}"))).
Proof.
  destruct unclosed_fence_loses_last_character as (Htag & _).
  apply (Htag [] (py ("{" ++ quoted "a" ++ ":1}"))); vm_compute; reflexivity.
Defined.

(** C3: what the code does instead.  The handler of the decode error decodes
    the fence candidate a second time and never the original text: on a JSON
    object one of whose texts holds a fenced block the original text decodes,
    and the parser raises a decode error. *)
Theorem parse_json_response_never_retries_original :
  (forall content : str,
      parse_json_response content = json_loads (fence_candidate content))
  /\ (exists v, json_loads Examples.object_with_fence = Ok v)
  /\ fence_candidate Examples.object_with_fence = py "x"
  /\ parse_json_response Examples.object_with_fence = Raise JSONDecodeError.
Proof.
  split; [exact parse_json_response_decodes|].
  split; [eexists; vm_compute; reflexivity|].
  split; vm_compute; reflexivity.
Qed.

(** ** The document processor *)

Lemma put_items_app (a b : history) : put_items (a ++ b) = put_items a ++ put_items b.
Proof. apply flat_map_app. Qed.

Lemma opened_app (a b : history) : opened (a ++ b) = opened a ++ opened b.
Proof. apply flat_map_app. Qed.

Lemma fetched_app (a b : history) : fetched (a ++ b) = fetched a ++ fetched b.
Proof. apply flat_map_app. Qed.

Lemma get_page_count_ok (svc : services) (content : bytes) (content_type : str) :
  exists v, get_page_count svc content content_type = Ok v.
Proof.
  unfold get_page_count.
  destruct (get_page_count_try svc content content_type); eauto.
Qed.

Lemma print_document (bucket : json) (key : str) :
  print [Lit "Processing document: s3://"; Shown bucket; Lit "/"; Text key]
  = if printable_document bucket key then Ok tt else Raise UnicodeEncodeError.
Proof.
  unfold print, printable_document. cbn [forallb piece_encodable andb].
  destruct (shown_encodable bucket), (encodable key); reflexivity.
Qed.

Lemma print_failure (key : str) (e : exn) :
  print [Lit "Failed to process "; Text key; Lit ": "; Message e]
  = if encodable key then Ok tt else Raise UnicodeEncodeError.
Proof.
  unfold print. cbn [forallb piece_encodable andb].
  destruct (encodable key); reflexivity.
Qed.

(** One step of [process_document]: case analysis on the answer of the next
    service or library call. *)
Ltac pd_unfold :=
  unfold process_document, invoke_bedrock_with_document, load_schema,
    load_prompt_template, rewrap, bind, call, lift, ret;
  rewrite print_document;
  cbn beta iota.

Ltac pd_step :=
  match goal with
  | |- context [if printable_document ?b ?k then _ else _] =>
      destruct (printable_document b k) eqn:?
  | |- context [match s3_get_object ?s ?h ?b ?k with _ => _ end] =>
      destruct (s3_get_object s h b k) as [[? ?]|?] eqn:?
  | |- context [match get_page_count ?s ?c ?t with _ => _ end] =>
      let v := fresh "page_count" in
      let E := fresh "Hpages" in
      destruct (get_page_count_ok s c t) as [v E]; rewrite E
  | |- context [match loads ?v with _ => _ end] => destruct (loads v) eqn:?
  | |- context [(loads ?v, _)] => destruct (loads v) eqn:?
  | |- context [match read_file ?s ?p with _ => _ end] =>
      destruct (read_file s p) eqn:?
  | |- context [match format_prompt ?s ?a ?b with _ => _ end] =>
      destruct (format_prompt s a b) eqn:?
  | |- context [match invoke_model ?s ?h ?a ?b ?c with _ => _ end] =>
      destruct (invoke_model s h a b c) eqn:?
  | |- context [match read_completion ?b with _ => _ end] =>
      destruct (read_completion b) eqn:?
  | |- context [(read_completion ?b, _)] => destruct (read_completion b) eqn:?
  | |- context [match items ?v with _ => _ end] => destruct (items v) eqn:?
  | |- context [match put_item ?s ?h ?r with _ => _ end] =>
      destruct (put_item s h r) eqn:?
  end;
  cbn beta iota.

Ltac pd_cases := pd_unfold; repeat pd_step.

Ltac trace_simpl :=
  rewrite ?put_items_app, ?opened_app, ?fetched_app; cbn [put_items opened fetched flat_map app];
  rewrite ?app_nil_r.

Lemma process_document_put_items (svc : services) (b : json) (k : str) (t : json)
  (h : history) :
  match process_document svc b k t h with
  | (Ok record, h') => put_items h' = put_items h ++ [record]
  | (Raise e, h') =>
      put_items h' = put_items h
      \/ (stage_of e = Some Persistence
          /\ exists item, put_items h' = put_items h ++ [item])
  end.
Proof.
  pd_cases; trace_simpl; try (left; reflexivity); [reflexivity|].
  right. split; [reflexivity|eauto].
Qed.

Lemma process_document_fetched (svc : services) (b : json) (k : str) (t : json)
  (h : history) :
  fetched (snd (process_document svc b k t h))
  = fetched h ++ (if printable_document b k then [(b, k)] else []).
Proof.
  pd_cases; cbn [snd]; trace_simpl; reflexivity.
Qed.

(** When its first line cannot be printed, [process_document] raises before
    any call. *)
Lemma process_document_unprintable (svc : services) (b : json) (k : str) (t : json)
  (h : history) :
  printable_document b k = false ->
  process_document svc b k t h = (Raise UnicodeEncodeError, h).
Proof.
  intros H. pd_unfold. now rewrite H.
Qed.

(** ** Dictionaries and record assembly *)

Lemma str_eqb_eq (a b : str) : str_eqb a b = true <-> a = b.
Proof.
  revert b. induction a as [|x a IH]; intros [|y b]; simpl; split; intros H;
    try reflexivity; try discriminate.
  - apply andb_true_iff in H as [H1 H2]. apply N.eqb_eq in H1.
    apply IH in H2. congruence.
  - injection H as -> ->. rewrite N.eqb_refl. now apply IH.
Qed.

Lemma str_eqb_refl (a : str) : str_eqb a a = true.
Proof. now apply str_eqb_eq. Qed.

Lemma str_eqb_neq (a b : str) : str_eqb a b = false <-> a <> b.
Proof.
  split; intros H.
  - intros ->. rewrite str_eqb_refl in H. discriminate.
  - destruct (str_eqb a b) eqn:E; [|reflexivity]. apply str_eqb_eq in E. contradiction.
Qed.

Lemma dict_get_set_same (d : dict) (k : str) (v : json) :
  dict_get (dict_set d k v) k = Some v.
Proof.
  induction d as [|[k' v'] d IH]; simpl.
  - now rewrite str_eqb_refl.
  - destruct (str_eqb k' k) eqn:E; simpl; rewrite E; [reflexivity|exact IH].
Qed.

Lemma dict_get_set_other (d : dict) (k k' : str) (v : json) :
  k <> k' -> dict_get (dict_set d k v) k' = dict_get d k'.
Proof.
  intros Hne. induction d as [|[k0 v0] d IH]; simpl.
  - apply str_eqb_neq in Hne. now rewrite Hne.
  - destruct (str_eqb k0 k) eqn:E; simpl.
    + apply str_eqb_eq in E. subst k0.
      apply str_eqb_neq in Hne. now rewrite Hne.
    + destruct (str_eqb k0 k'); [reflexivity|exact IH].
Qed.

Lemma dict_get_app (a b : dict) (k : str) :
  dict_get (a ++ b) k =
  match dict_get a k with Some v => Some v | None => dict_get b k end.
Proof.
  induction a as [|[k' v'] a IH]; simpl; [reflexivity|].
  destruct (str_eqb k' k); [reflexivity|exact IH].
Qed.

(** The loop of line 196 gives a key the value of its last entry in the
    enumeration, and leaves the other keys as they were. *)
Lemma merge_properties_get (props : list (str * json)) :
  forall (record : dict) (k : str),
    dict_get (merge_properties record props) k =
    match dict_get (rev props) k with
    | Some v => Some v
    | None => dict_get record k
    end.
Proof.
  unfold merge_properties.
  induction props as [|[k0 v0] props IH]; intros record k; simpl; [reflexivity|].
  rewrite IH, dict_get_app. simpl.
  destruct (dict_get (rev props) k); [reflexivity|].
  destruct (str_eqb k0 k) eqn:E.
  - apply str_eqb_eq in E. subst. apply dict_get_set_same.
  - apply str_eqb_neq in E. now apply dict_get_set_other.
Qed.

Lemma dict_get_In (d : dict) (k : str) (v : json) :
  NoDup (keys d) -> In (k, v) d -> dict_get d k = Some v.
Proof.
  induction d as [|[k' v'] d IH]; simpl; intros Hnd Hin; [contradiction|].
  inversion Hnd as [|? ? Hnotin Hnd']; subst.
  destruct Hin as [Heq|Hin].
  - injection Heq as -> ->. now rewrite str_eqb_refl.
  - destruct (str_eqb k' k) eqn:E; [|now apply IH].
    apply str_eqb_eq in E. subst k'.
    exfalso. apply Hnotin. unfold keys. apply in_map_iff. now exists (k, v).
Qed.

Lemma keys_rev (d : dict) : keys (rev d) = rev (keys d).
Proof. unfold keys. apply map_rev. Qed.

Lemma merge_properties_wins (record : dict) (props : list (str * json))
  (k : str) (v : json) :
  NoDup (keys props) -> In (k, v) props ->
  dict_get (merge_properties record props) k = Some v.
Proof.
  intros Hnd Hin. rewrite merge_properties_get.
  rewrite (dict_get_In (rev props) k v); [reflexivity| |].
  - rewrite keys_rev. now apply NoDup_rev.
  - now apply in_rev in Hin.
Qed.

(** ** The JSON decoder *)

Local Open Scope nat_scope.

Lemma skip_ws_length (s : str) : length (skip_ws s) <= length s.
Proof.
  induction s as [|c s IH]; simpl; [lia|].
  destruct (is_ws c); simpl; lia.
Qed.

Lemma span_digits_length (s : str) : length (snd (span_digits s)) <= length s.
Proof.
  induction s as [|c s IH]; simpl; [lia|].
  destruct (is_digit c); [|simpl; lia].
  destruct (span_digits s). simpl in *. lia.
Qed.

Lemma scan_frac_length (s : str) : length (snd (scan_frac s)) <= length s.
Proof.
  destruct s as [|c s]; simpl; [lia|].
  destruct (c =? 46)%N; [|simpl; lia].
  pose proof (span_digits_length s) as H.
  destruct (span_digits s) as [[|d ds] r]; simpl in *; lia.
Qed.

Lemma scan_exp_length (s : str) : length (snd (scan_exp s)) <= length s.
Proof.
  destruct s as [|c s]; simpl; [lia|].
  destruct ((c =? 101) || (c =? 69))%N; [|simpl; lia].
  destruct s as [|g t]; simpl; [lia|].
  destruct ((g =? 43) || (g =? 45))%N.
  - pose proof (span_digits_length t) as H.
    destruct (span_digits t) as [[|d ds] r]; simpl in *; lia.
  - pose proof (span_digits_length (g :: t)) as H.
    destruct (span_digits (g :: t)) as [[|d ds] r]; simpl in *; lia.
Qed.

Lemma scan_int_length (s ds r : str) :
  scan_int s = Some (ds, r) -> length r < length s.
Proof.
  destruct s as [|c t]; simpl; [discriminate|].
  destruct (c =? 48)%N; [intros E; injection E as _ <-; lia|].
  destruct (is_digit c); [|discriminate].
  pose proof (span_digits_length t). destruct (span_digits t); simpl in *.
  intros E; injection E as _ <-; lia.
Qed.

Lemma scan_number_length (s : str) (v : json) (r : str) :
  scan_number s = Some (v, r) -> length r < length s.
Proof.
  unfold scan_number.
  assert (Hsign : length (snd (scan_sign s)) <= length s).
  { destruct s as [|c t]; simpl; [lia|]. destruct (c =? 45)%N; simpl; lia. }
  destruct (scan_sign s) as [neg s1]. simpl in Hsign.
  destruct (scan_int s1) as [[ds r0]|] eqn:Hint; [|discriminate].
  apply scan_int_length in Hint.
  pose proof (scan_frac_length r0) as Hf. destruct (scan_frac r0) as [fr r1].
  pose proof (scan_exp_length r1) as He. destruct (scan_exp r1) as [ex r2].
  simpl in *. intros H.
  assert (r = r2) by (destruct fr, ex; congruence). subst. lia.
Qed.

Lemma startswith_length (p s : str) : startswith p s = true -> length p <= length s.
Proof.
  revert s. induction p as [|c p IH]; intros [|d s] H; simpl in *; try lia; try discriminate.
  apply andb_true_iff in H as [_ H]. specialize (IH _ H). lia.
Qed.

Lemma scan_constant_length (s : str) (v : json) (r : str) :
  scan_constant s = Some (v, r) -> length r < length s.
Proof.
  unfold scan_constant.
  repeat match goal with
  | |- context [startswith ?p s] =>
      let E := fresh "E" in
      destruct (startswith p s) eqn:E;
      [apply startswith_length in E;
       let n := eval vm_compute in (length p) in change (length p) with n in E;
       intros H;
       match type of H with
       | Some (_, ?x) = _ => assert (Hr : r = x) by congruence
       end;
       rewrite Hr, length_skipn; lia|]
  end.
  intros H; discriminate.
Qed.

Ltac break_hyp H :=
  match type of H with
  | context [match ?x with _ => _ end] => destruct x eqn:?
  | context [if ?x then _ else _] => destruct x eqn:?
  end.

Lemma scanstring_length :
  forall (n : nat) (s t r : str),
    length s <= n -> scanstring s = Some (t, r) -> length r < length s.
Proof.
  induction n as [|n IH]; intros s t r Hn H.
  - destruct s; simpl in *; [discriminate|lia].
  - destruct s as [|c s1]; [discriminate|].
    simpl in H.
    repeat (break_hyp H; try discriminate).
    all: try (injection H as <- <-; simpl; lia).
    all: repeat match goal with
         | E : scanstring ?x = Some (_, ?y) |- _ => apply IH in E; [|simpl in *; lia]
         end.
    all: try (injection H as _ <-; simpl in *; lia).
Qed.

Lemma scanstring_shorter (s t r : str) :
  scanstring s = Some (t, r) -> length r < length s.
Proof. apply (scanstring_length (length s)). lia. Qed.

Ltac length_facts IHs IHa IHo :=
  repeat match goal with
  | E : scanstring _ = Some (_, _) |- _ => apply scanstring_shorter in E
  | E : scan_constant _ = Some (_, _) |- _ => apply scan_constant_length in E
  | E : scan_number _ = Some (_, _) |- _ => apply scan_number_length in E
  | E : scan_once _ _ = Some (_, _) |- _ => apply IHs in E
  | E : parse_array _ _ _ = Some (_, _) |- _ => apply IHa in E
  | E : parse_object _ _ _ = Some (_, _) |- _ => apply IHo in E
  | E : skip_ws ?x = _ |- _ =>
      let L := fresh "L" in
      pose proof (skip_ws_length x) as L; rewrite E in L; clear E
  end;
  repeat match goal with
  | H : context [length (skip_ws ?x)] |- _ =>
      lazymatch goal with
      | _ : length (skip_ws x) <= length x |- _ => fail
      | _ => pose proof (skip_ws_length x)
      end
  | |- context [length (skip_ws ?x)] =>
      lazymatch goal with
      | _ : length (skip_ws x) <= length x |- _ => fail
      | _ => pose proof (skip_ws_length x)
      end
  end.

(** A value that is read consumes at least one character. *)
Lemma scan_shorter :
  forall n : nat,
    (forall s v r, scan_once n s = Some (v, r) -> length r < length s)
    /\ (forall acc s v r, parse_array n acc s = Some (v, r) -> length r < length s)
    /\ (forall acc s v r, parse_object n acc s = Some (v, r) -> length r < length s).
Proof.
  induction n as [|n (IHs & IHa & IHo)].
  - repeat split; intros; discriminate.
  - split; [|split].
    + intros s v r H. cbn [scan_once] in H.
      repeat (break_hyp H; try discriminate).
      all: try (injection H as _ <-); try (injection H as ->).
      all: length_facts IHs IHa IHo; simpl in *; try lia.
    + intros acc s v r H. cbn [parse_array] in H.
      repeat (break_hyp H; try discriminate).
      all: try (injection H as _ <-); try (injection H as ->).
      all: length_facts IHs IHa IHo; simpl in *; try lia.
    + intros acc s v r H. cbn [parse_object] in H.
      repeat (break_hyp H; try discriminate).
      all: try (injection H as _ <-); try (injection H as ->).
      all: length_facts IHs IHa IHo; simpl in *; try lia.
Qed.

Ltac destruct_innermost x :=
  lazymatch x with
  | context [match ?y with _ => _ end] => destruct_innermost y
  | context [if ?y then _ else _] => destruct_innermost y
  | _ => destruct x eqn:?
  end.

Ltac fuel_step IHs IHa IHo Ls La Lo m :=
  first
    [ match goal with
      | |- context [scan_once m ?x] =>
          rewrite (IHs x m) by (length_facts Ls La Lo; simpl in *; lia)
      | |- context [parse_array m ?a ?x] =>
          rewrite (IHa a x m) by (length_facts Ls La Lo; simpl in *; lia)
      | |- context [parse_object m ?a ?x] =>
          rewrite (IHo a x m) by (length_facts Ls La Lo; simpl in *; lia)
      end
    | match goal with
      | |- context [match ?x with _ => _ end] => destruct_innermost x
      | |- context [if ?x then _ else _] => destruct_innermost x
      end ];
  try reflexivity.

(** Fuel beyond twice the length of the text and one more changes
    nothing. *)
Lemma scan_fuel :
  forall n : nat,
    (forall s m, 2 * length s + 1 <= n -> n <= m -> scan_once m s = scan_once n s)
    /\ (forall acc s m, 2 * length s + 2 <= n -> n <= m ->
          parse_array m acc s = parse_array n acc s)
    /\ (forall acc s m, 2 * length s + 2 <= n -> n <= m ->
          parse_object m acc s = parse_object n acc s).
Proof.
  induction n as [|n (IHs & IHa & IHo)].
  - repeat split; intros; lia.
  - destruct (scan_shorter n) as (Ls & La & Lo).
    split; [|split].
    + intros s [|m] Hn Hm; [lia|]. cbn [scan_once].
      repeat fuel_step IHs IHa IHo Ls La Lo m.
    + intros acc s [|m] Hn Hm; [lia|]. cbn [parse_array].
      repeat fuel_step IHs IHa IHo Ls La Lo m.
    + intros acc s [|m] Hn Hm; [lia|]. cbn [parse_object].
      repeat fuel_step IHs IHa IHo Ls La Lo m.
Qed.

(** The decoder does not depend on its fuel: any larger amount gives the
    same answer. *)
Lemma json_decode_fuel (s : str) (fuel : nat) :
  2 * length (skip_ws s) + 1 <= fuel ->
  json_decode_with fuel s = json_decode s.
Proof.
  intros H. unfold json_decode, json_decode_with.
  destruct (scan_fuel (2 * length (skip_ws s) + 1)) as (Hs & _).
  now rewrite (Hs (skip_ws s) fuel) by lia.
Qed.

Lemma dict_set_keys (d : dict) (k : str) (v : json) (x : str) :
  In x (keys (dict_set d k v)) -> x = k \/ In x (keys d).
Proof.
  induction d as [|[k0 v0] d IH]; simpl.
  - intros [<-|[]]. now left.
  - destruct (str_eqb k0 k); simpl; intros [<-|H]; auto.
    destruct (IH H); auto.
Qed.

Lemma dict_set_nodup (d : dict) (k : str) (v : json) :
  NoDup (keys d) -> NoDup (keys (dict_set d k v)).
Proof.
  induction d as [|[k0 v0] d IH]; simpl; intros Hnd.
  - repeat constructor. intros [].
  - inversion Hnd as [|? ? Hnotin Hnd']; subst.
    destruct (str_eqb k0 k) eqn:E; simpl; constructor; auto.
    intros Hin. apply dict_set_keys in Hin as [->|Hin]; [|contradiction].
    assert (str_eqb k k = true) by now apply str_eqb_eq. congruence.
Qed.

Lemma scan_constant_not_object (s : str) (d : dict) (r : str) :
  scan_constant s <> Some (JObject d, r).
Proof.
  unfold scan_constant.
  repeat match goal with
  | |- context [if ?b then _ else _] => destruct b; [discriminate|]
  end.
  discriminate.
Qed.

Lemma scan_number_not_object (s : str) (d : dict) (r : str) :
  scan_number s <> Some (JObject d, r).
Proof.
  unfold scan_number.
  destruct (scan_sign s) as [neg s1].
  destruct (scan_int s1) as [[ds r0]|]; [|discriminate].
  destruct (scan_frac r0) as [fr r1]. destruct (scan_exp r1) as [ex r2].
  destruct fr, ex; discriminate.
Qed.

(** The keys of an object that is read are pairwise distinct. *)
Lemma scan_object_keys :
  forall n : nat,
    (forall s d r, scan_once n s = Some (JObject d, r) -> NoDup (keys d))
    /\ (forall acc s v r, parse_array n acc s = Some (v, r) -> exists l, v = JArray l)
    /\ (forall acc s v r, parse_object n acc s = Some (v, r) ->
          NoDup (keys acc) -> exists d, v = JObject d /\ NoDup (keys d)).
Proof.
  induction n as [|n (IHs & IHa & IHo)].
  - repeat split; intros; discriminate.
  - split; [|split].
    + intros s d r H. cbn [scan_once] in H.
      repeat (break_hyp H; try discriminate).
      * injection H as <- _. constructor.
      * apply IHo in H; [|constructor]. destruct H as (d' & Hd & Hnd).
        injection Hd as ->. exact Hnd.
      * apply IHa in H. destruct H as (l & Hl). discriminate.
      * injection H as ->.
        match goal with E : scan_constant _ = Some _ |- _ =>
          now apply scan_constant_not_object in E end.
      * now apply scan_number_not_object in H.
    + intros acc s v r H. cbn [parse_array] in H.
      repeat (break_hyp H; try discriminate).
      * injection H as <- _. eauto.
      * now apply IHa in H.
    + intros acc s v r H Hnd. cbn [parse_object] in H.
      repeat (break_hyp H; try discriminate).
      * injection H as <- _. eexists. split; [reflexivity|]. now apply dict_set_nodup.
      * apply IHo in H; [exact H|]. now apply dict_set_nodup.
Qed.

Lemma json_decode_keys (s : str) (d : dict) :
  json_decode s = Some (JObject d) -> NoDup (keys d).
Proof.
  unfold json_decode, json_decode_with. intros H.
  destruct (scan_once _ _) as [[v r]|] eqn:E; [|discriminate].
  destruct (skip_ws r); [|discriminate]. injection H as ->.
  now apply scan_object_keys in E.
Qed.

Local Close Scope nat_scope.

Lemma parse_json_response_keys (content : str) (d : dict) :
  parse_json_response content = Ok (JObject d) -> NoDup (keys d).
Proof.
  unfold parse_json_response, json_loads.
  destruct (json_decode (fence_candidate content)) as [v|] eqn:E; [|discriminate].
  intros H. injection H as ->. now apply json_decode_keys in E.
Qed.

Lemma read_completion_keys (body : str) (d : dict) :
  read_completion body = Ok (JObject d) -> NoDup (keys d).
Proof.
  unfold read_completion, rbind.
  destruct (loads (JString body)); [|discriminate].
  destruct (subscript _ "content"); [|discriminate].
  destruct (subscript0 _); [|discriminate].
  destruct (subscript _ "text") as [content|]; [|discriminate].
  destruct content; try discriminate. apply parse_json_response_keys.
Qed.

(** The record that a successful [process_document] returns is the fixed
    fields, then the page count, then the properties that the extraction
    returned, whose keys are pairwise distinct. *)
Lemma process_document_record (svc : services) (b : json) (k : str) (t : json)
  (h : history) :
  match process_document svc b k t h with
  | (Ok record, _) =>
      exists record_id processing_time file_hash content_type size page_count props,
        record = merge_properties
                   (add_page_count
                      (fixed_fields record_id k b t processing_time file_hash
                         size content_type)
                      page_count)
                   props
        /\ NoDup (keys props)
        /\ exists prompt content h0,
            fst (invoke_bedrock_with_document svc prompt content content_type h0)
            = Ok (JObject props)
  | (Raise _, _) => True
  end.
Proof.
  pd_cases; try exact I.
  match goal with
  | Hi : items ?v = Ok _ |- _ => destruct v; try discriminate; injection Hi as <-
  end.
  do 7 eexists. split; [reflexivity|]. split.
  - match goal with
    | Hc : read_completion _ = Ok _ |- _ => exact (read_completion_keys _ _ Hc)
    end.
  - do 3 eexists. unfold invoke_bedrock_with_document, rewrap, bind, call, lift.
    cbn beta iota.
    match goal with Hm : invoke_model _ _ _ _ _ = Ok _ |- _ => rewrite Hm end.
    cbn beta iota.
    match goal with Hc : read_completion _ = Ok _ |- _ => rewrite Hc end.
    reflexivity.
Qed.

Lemma assembled_record_has_id (record_id k : str) (b t : json)
  (processing_time file_hash : str) (size : Z) (content_type : str)
  (page_count : option nat) (props : list (str * json)) :
  exists v,
    dict_get
      (merge_properties
         (add_page_count
            (fixed_fields record_id k b t processing_time file_hash size content_type)
            page_count)
         props)
      (py "id") = Some v.
Proof.
  rewrite merge_properties_get.
  destruct (dict_get (rev props) (py "id")); [eauto|].
  destruct page_count; eexists; reflexivity.
Qed.

(** ** The batch handler *)

Section Handler.

Variable svc : services.

(** What one document adds when its key can be printed: exactly one entry
    that carries its key, in the list that the outcome of [process_document]
    selects; no exception leaves the inner [try]. *)
Lemma handle_document_entry (b : json) (k : str) (t : json) (st : state) :
  encodable k = true ->
  exists st',
    handle_document svc b k t st = (None, st')
    /\ hist st' = snd (process_document svc b k t (hist st))
    /\ ((exists record record_id,
            fst (process_document svc b k t (hist st)) = Ok record
            /\ dict_get record (py "id") = Some record_id
            /\ results st' = results st ++ [success_entry k record_id]
            /\ errors st' = errors st)
        \/ (exists e,
            fst (process_document svc b k t (hist st)) = Raise e
            /\ results st' = results st
            /\ errors st' = errors st ++ [document_error_entry k e])).
Proof.
  intros Hk. unfold handle_document, except_document.
  pose proof (process_document_record svc b k t (hist st)) as Hrec.
  destruct (process_document svc b k t (hist st)) as [[record|e] h'].
  - destruct Hrec as (rid & pt & fh & ct & sz & pc & props & -> & _ & _).
    destruct (assembled_record_has_id rid k b t pt fh sz ct pc props) as [v Hv].
    unfold subscript. rewrite Hv.
    eexists. split; [reflexivity|]. split; [reflexivity|]. left.
    do 2 eexists. split; [reflexivity|]. split; [exact Hv|]. split; reflexivity.
  - rewrite print_failure, Hk.
    eexists. split; [reflexivity|]. split; [reflexivity|]. right.
    eexists. split; [reflexivity|]. split; reflexivity.
Qed.

(** When the key cannot be printed, the first line of [process_document]
    raises, the line of the handler raises again, and its exception leaves
    the inner [try]: nothing is appended and no call is made. *)
Lemma handle_document_unprintable (b : json) (k : str) (t : json) (st : state) :
  encodable k = false ->
  handle_document svc b k t st = (Some UnicodeEncodeError, st).
Proof.
  intros Hk. unfold handle_document.
  rewrite process_document_unprintable
    by (unfold printable_document; rewrite Hk; apply andb_false_r).
  unfold except_document. rewrite print_failure, Hk. now destruct st.
Qed.

Lemma handle_documents_cons (d : docref) (docs : list docref) (st : state) :
  handle_documents svc (d :: docs) st
  = handle_documents svc docs
      (snd (handle_document svc (fst (fst d)) (snd (fst d)) (snd d) st)).
Proof. reflexivity. Qed.

Lemma process_records_prefix :
  forall (records : list json) (st : state),
    process_records svc records st
    = (loop_exit svc records, handle_documents svc (completed_prefix svc records) st).
Proof.
  induction records as [|r rest IH]; intros st; simpl; [reflexivity|].
  destruct (read_record svc r) as [[[b k] t]|e]; [|reflexivity].
  unfold doc_key. cbn [fst snd].
  destruct (encodable k) eqn:Hk.
  - destruct (handle_document_entry b k t st Hk) as (st' & Hh & _).
    rewrite handle_documents_cons. cbn [fst snd]. rewrite Hh. cbn [snd]. apply IH.
  - now rewrite (handle_document_unprintable b k t st Hk).
Qed.

Lemma handle_envelope_completed (st : state) (env : json) :
  handle_envelope svc st env =
  let st' := handle_documents svc (completed svc env) st in
  match envelope_exit svc env with
  | None => st'
  | Some e => add_error st' (hist st') (envelope_error_entry e)
  end.
Proof.
  unfold handle_envelope, completed, envelope_exit.
  destruct (unwrap_envelope env) as [records|e]; [|reflexivity].
  rewrite process_records_prefix.
  destruct (loop_exit svc records); reflexivity.
Qed.

Lemma completed_prefix_encodable (records : list json) :
  Forall (fun d => encodable (doc_key d) = true) (completed_prefix svc records).
Proof.
  induction records as [|r rest IH]; simpl; [constructor|].
  destruct (read_record svc r) as [d|]; [|constructor].
  destruct (encodable (doc_key d)) eqn:E; constructor; assumption.
Qed.

Lemma completed_encodable (env : json) :
  Forall (fun d => encodable (doc_key d) = true) (completed svc env).
Proof.
  unfold completed. destruct (unwrap_envelope env); [|constructor].
  apply completed_prefix_encodable.
Qed.

Lemma grows_refl (st : state) : grows st st [] [].
Proof. unfold grows. now rewrite !app_nil_r. Qed.

Lemma grows_trans (a b c : state) (rs rs' es es' : list json) :
  grows a b rs es -> grows b c rs' es' -> grows a c (rs ++ rs') (es ++ es').
Proof.
  unfold grows. intros [-> ->] [-> ->]. now rewrite !app_assoc.
Qed.

Lemma outcomes_app (a b : list docref) :
  forall h,
    outcomes svc (a ++ b) h = outcomes svc a h ++ outcomes svc b (history_after svc a h).
Proof.
  induction a as [|d a IH]; intros h; [reflexivity|].
  cbn [app outcomes history_after]. now rewrite IH.
Qed.

Lemma history_after_app (a b : list docref) :
  forall h,
    history_after svc (a ++ b) h = history_after svc b (history_after svc a h).
Proof.
  induction a as [|d a IH]; intros h; [reflexivity|].
  cbn [app history_after]. apply IH.
Qed.

Lemma outcomes_documents (docs : list docref) :
  forall h, map fst (outcomes svc docs h) = docs.
Proof.
  induction docs as [|d docs IH]; intros h; [reflexivity|].
  cbn [outcomes map fst]. now rewrite IH.
Qed.

(** The entries of a list of documents whose keys can be printed are those
    of their runs. *)
Lemma handle_documents_entries :
  forall (docs : list docref) (st : state),
    Forall (fun d => encodable (doc_key d) = true) docs ->
    exists rs es,
      grows st (handle_documents svc docs st) rs es
      /\ document_entries (outcomes svc docs (hist st)) rs es
      /\ hist (handle_documents svc docs st) = history_after svc docs (hist st).
Proof.
  induction docs as [|[[b k] t] docs IH]; intros st Hdocs.
  - exists [], []. split; [apply grows_refl|]. split; [split; constructor|reflexivity].
  - inversion Hdocs as [|d ds Hk Hrest]; subst. unfold doc_key in Hk. cbn [fst snd] in Hk.
    rewrite handle_documents_cons. cbn [fst snd outcomes history_after].
    destruct (handle_document_entry b k t st Hk) as (st' & Hh & Hhist & Hone).
    rewrite Hh. cbn [snd].
    destruct (IH st' Hrest) as (rs & es & Hg & [Hrs Hes] & Hf).
    rewrite Hhist in Hrs, Hes, Hf.
    destruct Hone as [(record & rid & Hrun & Hid & Hr & He)|(e & Hrun & Hr & He)].
    + exists (success_entry k rid :: rs), es.
      split; [|split; [|exact Hf]].
      * apply (grows_trans st st' _ [success_entry k rid] rs [] es); [|exact Hg].
        unfold grows. now rewrite Hr, He, app_nil_r.
      * unfold document_entries, raised, returned. cbn [filter snd negb].
        rewrite Hrun. cbn [negb]. split; [|exact Hes].
        constructor; [|exact Hrs].
        unfold reports. cbn [fst snd]. exists rid. split; [exact Hid|reflexivity].
    + exists rs, (document_error_entry k e :: es).
      split; [|split; [|exact Hf]].
      * apply (grows_trans st st' _ [] rs [document_error_entry k e] es); [|exact Hg].
        unfold grows. now rewrite Hr, He, app_nil_r.
      * unfold document_entries, raised, returned. cbn [filter snd negb].
        rewrite Hrun. cbn [negb]. split; [exact Hrs|].
        constructor; [|exact Hes].
        unfold reports. cbn [fst snd]. reflexivity.
Qed.

Lemma reports_has_document (o : docref * result dict) (entry : json) :
  reports o entry -> has_document entry = true.
Proof.
  unfold reports. destruct (snd o) as [record|e].
  - intros (rid & _ & ->). reflexivity.
  - intros ->. reflexivity.
Qed.

Lemma reported_have_document (os : list (docref * result dict)) (l : list json) :
  Forall2 reports os l ->
  filter has_document l = l /\ filter without_document l = [].
Proof.
  induction 1 as [|o entry os l Hone _ [IH1 IH2]]; [split; reflexivity|].
  unfold without_document in *. cbn [filter].
  rewrite (reports_has_document o entry Hone). cbn [negb]. now rewrite IH1, IH2.
Qed.

(** The entries of a batch: those of the runs of [process_document] on the
    documents whose inner [try] completes, and one entry without document
    for each envelope whose [try] block ends early. *)
Lemma handle_envelopes_entries :
  forall (envelopes : list json) (st : state),
    exists rs es,
      grows st (handle_envelopes svc envelopes st) rs es
      /\ document_entries (outcomes svc (flat_map (completed svc) envelopes) (hist st))
           rs (filter has_document es)
      /\ filter without_document es = map envelope_error_entry (exits svc envelopes)
      /\ hist (handle_envelopes svc envelopes st)
         = history_after svc (flat_map (completed svc) envelopes) (hist st).
Proof.
  induction envelopes as [|env rest IH]; intros st.
  - exists [], []. split; [apply grows_refl|].
    split; [split; constructor|]. split; reflexivity.
  - unfold handle_envelopes. cbn [fold_left].
    fold (handle_envelopes svc rest (handle_envelope svc st env)).
    destruct (handle_documents_entries (completed svc env) st (completed_encodable env))
      as (rs1 & es1 & [Hr1 He1] & [Hrs1 Hes1] & Hf1).
    destruct (reported_have_document _ _ Hes1) as [Hkeep Hdrop].
    set (tail := match envelope_exit svc env with
                 | Some e => [envelope_error_entry e]
                 | None => []
                 end).
    assert (Hg1 : grows st (handle_envelope svc st env) rs1 (es1 ++ tail)
                  /\ hist (handle_envelope svc st env)
                     = history_after svc (completed svc env) (hist st)).
    { rewrite handle_envelope_completed. cbv zeta. subst tail.
      destruct (envelope_exit svc env); unfold grows, add_error; cbn [results errors hist].
      - rewrite Hr1, He1, app_assoc. auto.
      - rewrite Hr1, He1, app_nil_r. auto. }
    destruct Hg1 as [Hg1 Hh1].
    destruct (IH (handle_envelope svc st env)) as (rs2 & es2 & Hg2 & [Hrs2 Hes2] & Hexit2 & Hf2).
    rewrite Hh1 in Hrs2, Hes2, Hf2.
    exists (rs1 ++ rs2), ((es1 ++ tail) ++ es2).
    split; [exact (grows_trans _ _ _ _ _ _ _ Hg1 Hg2)|].
    assert (Htail : filter has_document tail = []
                    /\ filter without_document tail
                       = map envelope_error_entry
                           match envelope_exit svc env with
                           | Some e => [e]
                           | None => []
                           end).
    { subst tail. destruct (envelope_exit svc env); split; reflexivity. }
    destruct Htail as [Htail1 Htail2].
    unfold document_entries.
    cbn [flat_map]. rewrite outcomes_app, history_after_app, !filter_app.
    rewrite Hkeep, Hdrop, Htail1, Htail2, app_nil_r. cbn [app].
    split; [|split].
    + split; apply Forall2_app; assumption.
    + unfold exits. cbn [flat_map]. rewrite map_app. f_equal. exact Hexit2.
    + exact Hf2.
Qed.

(** On a batch the handler returns, and what it returns is the response made
    of the two lists of the final state. *)
Lemma lambda_handler_batch (envelopes : list json) (h : history) :
  lambda_handler svc (batch envelopes) h
  = (Ok (response_of (results (final_state svc envelopes h))
                     (errors (final_state svc envelopes h))),
     hist (final_state svc envelopes h)).
Proof. reflexivity. Qed.

(** When the keys of the records that can be read can be printed, the loop
    over the records ends only at a record that cannot be read. *)
Lemma completed_prefix_printable (records : list json) :
  forallb (fun d => encodable (doc_key d)) (readable_prefix svc records) = true ->
  completed_prefix svc records = readable_prefix svc records
  /\ loop_exit svc records = first_unreadable svc records.
Proof.
  induction records as [|r rest IH]; simpl; [auto|].
  destruct (read_record svc r) as [d|e]; [|auto].
  cbn [forallb]. intros H. apply andb_true_iff in H as [Hd Hrest].
  rewrite Hd. destruct (IH Hrest) as [-> ->]. auto.
Qed.

Lemma completed_printable (env : json) :
  forallb (fun d => encodable (doc_key d)) (attempted svc env) = true ->
  completed svc env = attempted svc env
  /\ envelope_exit svc env = envelope_failure svc env.
Proof.
  unfold completed, attempted, envelope_exit, envelope_failure.
  destruct (unwrap_envelope env); [apply completed_prefix_printable|auto].
Qed.

Lemma batch_printable (envelopes : list json) :
  keys_printable svc envelopes = true ->
  flat_map (completed svc) envelopes = flat_map (attempted svc) envelopes
  /\ exits svc envelopes = failures svc envelopes.
Proof.
  unfold keys_printable, exits, failures.
  induction envelopes as [|env rest IH]; [auto|].
  cbn [flat_map]. rewrite forallb_app. intros H. apply andb_true_iff in H as [Henv Hrest].
  destruct (completed_printable env Henv) as [-> ->].
  destruct (IH Hrest) as [-> ->]. auto.
Qed.

End Handler.

Lemma reports_document (o : docref * result dict) (entry : json) :
  reports o entry -> entry_document entry = Some (JString (doc_key (fst o))).
Proof.
  unfold reports. destruct (snd o) as [record|e].
  - intros (rid & _ & ->). reflexivity.
  - intros ->. reflexivity.
Qed.

Lemma reports_status (o : docref * result dict) (entry : json) :
  reports o entry ->
  entry_status entry
  = Some (JString (if returned o then py "success" else py "error")).
Proof.
  unfold reports, returned. destruct (snd o) as [record|e].
  - intros (rid & _ & ->). reflexivity.
  - intros ->. reflexivity.
Qed.

Lemma Forall2_In_left {A B} (R : A -> B -> Prop) (l : list A) (l' : list B) (x : A) :
  Forall2 R l l' -> In x l -> exists y, In y l' /\ R x y.
Proof.
  induction 1 as [|a b l l' Hab _ IH]; intros Hin; [destruct Hin|].
  destruct Hin as [<-|Hin].
  - exists b. split; [now left|exact Hab].
  - destruct (IH Hin) as (y & Hy & Hr). exists y. split; [now right|exact Hr].
Qed.

Lemma Forall2_In_right {A B} (R : A -> B -> Prop) (l : list A) (l' : list B) (y : B) :
  Forall2 R l l' -> In y l' -> exists x, In x l /\ R x y.
Proof.
  induction 1 as [|a b l l' Hab _ IH]; intros Hin; [destruct Hin|].
  destruct Hin as [<-|Hin].
  - exists a. split; [now left|exact Hab].
  - destruct (IH Hin) as (x & Hx & Hr). exists x. split; [now right|exact Hr].
Qed.

Lemma returned_or_raised (os : list (docref * result dict)) :
  (length (filter returned os) + length (filter raised os) = length os)%nat.
Proof.
  unfold raised. induction os as [|o os IH]; [reflexivity|].
  cbn [filter]. destruct (returned o); cbn [negb length]; lia.
Qed.

(** Every run has its entry in one of the two lists, and the two lists hold
    nothing else. *)
Lemma document_entries_all (os : list (docref * result dict)) (rs es : list json) :
  document_entries os rs es ->
  (length rs + length es = length os)%nat
  /\ (forall o, In o os ->
        exists entry, In entry (if returned o then rs else es) /\ reports o entry)
  /\ (forall entry, In entry (rs ++ es) -> exists o, In o os /\ reports o entry).
Proof.
  intros [Hrs Hes]. split; [|split].
  - rewrite <- (Forall2_length Hrs), <- (Forall2_length Hes). apply returned_or_raised.
  - intros o Hin. destruct (returned o) eqn:E.
    + apply (Forall2_In_left _ _ _ _ Hrs). apply filter_In. auto.
    + apply (Forall2_In_left _ _ _ _ Hes). apply filter_In. unfold raised. now rewrite E.
  - intros entry Hin. apply in_app_or in Hin as [Hin|Hin].
    + destruct (Forall2_In_right _ _ _ _ Hrs Hin) as (o & Ho & Hr).
      apply filter_In in Ho as [Ho _]. eauto.
    + destruct (Forall2_In_right _ _ _ _ Hes Hin) as (o & Ho & Hr).
      apply filter_In in Ho as [Ho _]. eauto.
Qed.

Lemma outcomes_In (svc : services) (docs : list docref) (h : history) (d : docref) :
  In d docs -> exists r, In (d, r) (outcomes svc docs h).
Proof.
  intros Hin. rewrite <- (outcomes_documents svc docs h) in Hin.
  apply in_map_iff in Hin as ([d' r] & Hd & Hin). cbn in Hd. subst d'. eauto.
Qed.

Lemma outcomes_length (svc : services) (docs : list docref) (h : history) :
  length (outcomes svc docs h) = length docs.
Proof. now rewrite <- (outcomes_documents svc docs h) at 2; rewrite length_map. Qed.

Lemma history_after_fetched (svc : services) (docs : list docref) :
  forall h,
    fetched (history_after svc docs h)
    = fetched h ++ map doc_location (filter fetchable docs).
Proof.
  induction docs as [|[[b k] t] docs IH]; intros h; [now rewrite app_nil_r|].
  cbn [history_after fst snd]. rewrite IH, process_document_fetched.
  unfold fetchable at 2. unfold doc_key. cbn [filter fst snd].
  destruct (printable_document b k); cbn [map]; now rewrite <- app_assoc.
Qed.

Lemma filter_subset {A} (f : A -> bool) (l : list A) (x : A) :
  In x (filter f l) -> In x l.
Proof. intros H. now apply filter_In in H. Qed.

(** C1, as the specification states it, fails: a document that follows a
    record without fields in its envelope is named by the batch and has no
    entry in the result. *)
Lemma skipped_document_is_not_described :
  ~ every_document_described Fixture.world Batches.skipping [].
Proof.
  intros (rs & es & h' & Hrun & Hall).
  rewrite lambda_handler_batch in Hrun.
  remember (final_state Fixture.world Batches.skipping []) as fin eqn:Efin.
  vm_compute in Efin. subst fin. cbn [results errors hist] in Hrun.
  unfold response_of in Hrun. injection Hrun as _ _ _ Hrs Hes _. subst rs es.
  destruct (Hall (JString (py "b"), py "c.pdf", JString (py "t0")))
    as (entry & Hin & Hdoc).
  - vm_compute. left. reflexivity.
  - destruct Hin as [<-|[]]. vm_compute in Hdoc. discriminate.
Qed.

(** C1, amended: on every batch the handler returns; the status code is 200
    when the failure list is empty and 207 otherwise; [processed] and
    [errors] are the lengths of the two lists.  When the keys of the
    attempted documents can be printed, [process_document] is run on each
    attempted document, one after the other; the entries of [results] are,
    in order, the success entries of the runs that returned, each with the
    document's key and the [id] of the record returned; the entries of
    [errors_detail] that have a document are, in order, the failure entries
    of the runs that raised, each with the document's key and the exception;
    its entries without document are, in order, one for each envelope whose
    [try] block ended early, with the exception that ended it.  No other
    entry is in the lists: a record that follows an unreadable sibling has
    none. *)
Theorem lambda_handler_result (svc : services) (envelopes : list json) (h : history) :
  exists resp rs es h',
    lambda_handler svc (batch envelopes) h = (Ok resp, h')
    /\ statusCode resp = match es with [] => 200 | _ :: _ => 207 end
    /\ body resp = JObject [ (py "processed", JInt (len rs));
                             (py "errors", JInt (len es));
                             (py "results", JArray rs);
                             (py "errors_detail", JArray es) ]
    /\ (keys_printable svc envelopes = true ->
        batch_entries svc envelopes h rs es
        /\ h' = history_after svc (flat_map (attempted svc) envelopes) h).
Proof.
  destruct (handle_envelopes_entries svc envelopes
              {| results := []; errors := []; hist := h |})
    as (rs & es & [Hr He] & Hdocs & Hexits & Hh).
  cbn [results errors hist app] in Hr, He, Hdocs, Hh.
  exists (response_of rs es), rs, es, (hist (final_state svc envelopes h)).
  split; [|split; [reflexivity|split; [reflexivity|]]].
  - rewrite lambda_handler_batch. unfold final_state. now rewrite Hr, He.
  - intros Hkeys. destruct (batch_printable svc envelopes Hkeys) as [Hsame Hfail].
    unfold batch_entries. rewrite <- Hsame, <- Hfail.
    split; [split; assumption|exact Hh].
Qed.

(** [lambda_handler_result] on the mixed batch. *)
Lemma lambda_handler_result_witness :
  exists resp rs es h',
    lambda_handler Fixture.world (batch Batches.mixed) [] = (Ok resp, h')
    /\ statusCode resp = match es with [] => 200 | _ :: _ => 207 end
    /\ batch_entries Fixture.world Batches.mixed [] rs es.
Proof.
  destruct (lambda_handler_result Fixture.world Batches.mixed [])
    as (resp & rs & es & h' & Hrun & Hstatus & _ & Hentries).
  exists resp, rs, es, h'. split; [exact Hrun|]. split; [exact Hstatus|].
  apply Hentries. vm_compute. reflexivity.
Defined.

Lemma readable_prefix_all (svc : services) (records : list json) :
  first_unreadable svc records = None ->
  readable_prefix svc records = readable svc records.
Proof.
  induction records as [|r rest IH]; simpl; [reflexivity|].
  destruct (read_record svc r); [|discriminate].
  intros H. now rewrite (IH H).
Qed.

Lemma attempted_all (svc : services) (envelopes : list json) :
  forallb (records_readable svc) envelopes = true ->
  flat_map (attempted svc) envelopes = flat_map (named svc) envelopes.
Proof.
  induction envelopes as [|env rest IH]; simpl; [reflexivity|].
  intros H. apply andb_true_iff in H as [Henv Hrest].
  rewrite (IH Hrest). f_equal.
  unfold records_readable, attempted, named in *.
  destruct (unwrap_envelope env) as [records|]; [|reflexivity].
  destruct (first_unreadable svc records) eqn:E; [discriminate|].
  now apply readable_prefix_all.
Qed.

Lemma failures_length (svc : services) (envelopes : list json) :
  length (failures svc envelopes) = failed_envelopes svc envelopes.
Proof.
  unfold failures, failed_envelopes.
  induction envelopes as [|env rest IH]; [reflexivity|].
  cbn [flat_map filter]. destruct (envelope_failure svc env); cbn [app length]; now rewrite IH.
Qed.

Lemma filter_partition_length {A} (f : A -> bool) (l : list A) :
  (length (filter f l) + length (filter (fun x => negb (f x)) l) = length l)%nat.
Proof.
  induction l as [|x l IH]; [reflexivity|].
  cbn [filter]. destruct (f x); cbn [negb length]; lia.
Qed.

(** C2, on the code: a failure of [process_document] on a document whose key
    can be printed adds one failure entry with that key, and the loop goes
    on with the next record; an envelope whose body does not decode adds one
    failure entry and the loop goes on with the next envelope; in a batch
    whose records can be read and whose keys can be printed, every document
    has an entry, whatever fails.  But at a document whose key cannot be
    printed [process_document] raises, the handler of the inner [try] raises
    again, and the loop over the records ends there with nothing appended:
    on the batch [Batches.unprintable_key] the first envelope gets one entry
    without document, and its second document, which the batch names, is
    never fetched and has no entry. *)
Theorem unprintable_key_defeats_isolation :
  (forall svc r b k t st e rest,
      read_record svc r = Ok (b, k, t) ->
      encodable k = true ->
      fst (process_document svc b k t (hist st)) = Raise e ->
      process_records svc (r :: rest) st
      = process_records svc rest
          (add_error st (snd (process_document svc b k t (hist st)))
             (document_error_entry k e))
      /\ entry_document (document_error_entry k e) = Some (JString k))
  /\ (forall svc env text st rest,
      subscript env "body" = Ok (JString text) ->
      json_decode text = None ->
      handle_envelopes svc (env :: rest) st
      = handle_envelopes svc rest
          (add_error st (hist st) (envelope_error_entry JSONDecodeError)))
  /\ (forall svc envelopes h,
      forallb (records_readable svc) envelopes = true ->
      keys_printable svc envelopes = true ->
      let st := final_state svc envelopes h in
      fetched (hist st)
      = fetched h ++ map doc_location (filter fetchable (flat_map (named svc) envelopes))
      /\ (length (results st) + length (errors st)
          = length (flat_map (named svc) envelopes)
            + failed_envelopes svc envelopes)%nat
      /\ forall d, In d (flat_map (named svc) envelopes) ->
           exists entry, In entry (results st ++ errors st)
                         /\ entry_document entry = Some (JString (doc_key d)))
  /\ (forall svc r b k t st rest,
      read_record svc r = Ok (b, k, t) ->
      encodable k = false ->
      process_document svc b k t (hist st) = (Raise UnicodeEncodeError, hist st)
      /\ process_records svc (r :: rest) st = (Some UnicodeEncodeError, st))
  /\ (exists record_id h',
      lambda_handler Fixture.world (batch Batches.unprintable_key) []
      = (Ok (response_of [success_entry (py "a.pdf") record_id]
               [envelope_error_entry UnicodeEncodeError]), h')
      /\ fetched h' = [(JString (py "b"), py "a.pdf")]
      /\ In (JString (py "b"), py "c.pdf", JString (py "t0"))
           (flat_map (named Fixture.world) Batches.unprintable_key)).
Proof.
  split; [|split; [|split; [|split]]].
  - intros svc r b k t st e rest Hread Hk Hfail. split; [|reflexivity].
    cbn [process_records]. rewrite Hread.
    unfold handle_document, except_document.
    destruct (process_document svc b k t (hist st)) as [res h'].
    cbn [fst snd] in *. subst res. now rewrite print_failure, Hk.
  - intros svc env text st rest Hbody Hdecode.
    unfold handle_envelopes. cbn [fold_left]. f_equal.
    unfold handle_envelope, unwrap_envelope.
    rewrite Hbody. cbn [rbind loads]. unfold json_loads. now rewrite Hdecode.
  - intros svc envelopes h Hready Hkeys st.
    destruct (handle_envelopes_entries svc envelopes
                {| results := []; errors := []; hist := h |})
      as (rs & es & [Hr He] & Hdocs & Hexits & Hh).
    cbn [results errors hist app] in Hr, He, Hdocs, Hh.
    destruct (batch_printable svc envelopes Hkeys) as [Hsame Hfail].
    rewrite Hsame, (attempted_all svc envelopes Hready) in *. rewrite Hfail in Hexits.
    subst st. unfold final_state. rewrite Hr, He, Hh.
    destruct (document_entries_all _ _ _ Hdocs) as (Hlen & Hall & _).
    split; [apply history_after_fetched|]. split.
    + rewrite outcomes_length in Hlen. rewrite <- Hlen, <- failures_length.
      rewrite <- (length_map envelope_error_entry), <- Hexits.
      pose proof (filter_partition_length has_document es) as Hp.
      unfold without_document. lia.
    + intros d Hin. destruct (outcomes_In svc _ h d Hin) as [r Ho].
      destruct (Hall _ Ho) as (entry & Hentry & Hrep).
      exists entry. split; [|exact (reports_document _ _ Hrep)].
      apply in_or_app. destruct (returned (d, r)); [now left|right].
      exact (filter_subset _ _ _ Hentry).
  - intros svc r b k t st rest Hread Hk. split.
    + apply process_document_unprintable. unfold printable_document.
      rewrite Hk. apply andb_false_r.
    + cbn [process_records]. rewrite Hread.
      now rewrite (handle_document_unprintable svc b k t st Hk).
  - eexists. eexists. split; [vm_compute; reflexivity|].
    split; [vm_compute; reflexivity|]. vm_compute. auto.
Qed.

(** [unprintable_key_defeats_isolation] on the document that cannot be
    fetched, on the envelope that is not JSON, on the mixed batch, and on
    the record whose key is a surrogate on its own. *)
Lemma unprintable_key_defeats_isolation_witness :
  let st0 := {| results := []; errors := []; hist := [] |} in
  let e := Exception (py "Failed to download document from S3: NoSuchKey") in
  (process_records Fixture.world
     [Fixture.s3_record "b" "missing.pdf" "t0"; Fixture.s3_record "b" "c.pdf" "t0"] st0
   = process_records Fixture.world [Fixture.s3_record "b" "c.pdf" "t0"]
       (add_error st0
          (snd (process_document Fixture.world (JString (py "b")) (py "missing.pdf")
                  (JString (py "t0")) []))
          (document_error_entry (py "missing.pdf") e))
   /\ entry_document (document_error_entry (py "missing.pdf") e)
      = Some (JString (py "missing.pdf")))
  /\ handle_envelopes Fixture.world
       [Fixture.broken_envelope; Fixture.envelope [Fixture.s3_record "b" "c.pdf" "t0"]] st0
     = handle_envelopes Fixture.world [Fixture.envelope [Fixture.s3_record "b" "c.pdf" "t0"]]
         (add_error st0 [] (envelope_error_entry JSONDecodeError))
  /\ (let st := final_state Fixture.world Batches.mixed [] in
      fetched (hist st)
      = fetched []
        ++ map doc_location
             (filter fetchable (flat_map (named Fixture.world) Batches.mixed))
      /\ (length (results st) + length (errors st)
          = length (flat_map (named Fixture.world) Batches.mixed)
            + failed_envelopes Fixture.world Batches.mixed)%nat
      /\ forall d, In d (flat_map (named Fixture.world) Batches.mixed) ->
           exists entry, In entry (results st ++ errors st)
                         /\ entry_document entry = Some (JString (doc_key d)))
  /\ (process_document Fixture.world (JString (py "b")) Batches.lone_surrogate_key
        (JString (py "t0")) []
      = (Raise UnicodeEncodeError, [])
      /\ process_records Fixture.world
           [Fixture.keyed_record "b" Batches.lone_surrogate_key "t0";
            Fixture.s3_record "b" "c.pdf" "t0"] st0
         = (Some UnicodeEncodeError, st0)).
Proof.
  intros st0 e.
  destruct unprintable_key_defeats_isolation as (Hdoc & Henv & Hall & Hkey & _).
  split; [|split; [|split]].
  - apply (Hdoc Fixture.world (Fixture.s3_record "b" "missing.pdf" "t0")
             (JString (py "b")) (py "missing.pdf") (JString (py "t0")) st0 e);
      vm_compute; reflexivity.
  - apply (Henv Fixture.world Fixture.broken_envelope (py "not json") st0);
      vm_compute; reflexivity.
  - apply (Hall Fixture.world Batches.mixed []); vm_compute; reflexivity.
  - apply (Hkey Fixture.world (Fixture.keyed_record "b" Batches.lone_surrogate_key "t0")
             (JString (py "b")) Batches.lone_surrogate_key (JString (py "t0")) st0
             [Fixture.s3_record "b" "c.pdf" "t0"]);
      vm_compute; reflexivity.
Defined.

Lemma loop_reaches (svc : services) (bad : json) (post : list json) (e : exn) :
  read_record svc bad = Raise e ->
  forall pre,
    first_unreadable svc pre = None ->
    exists skipped e',
      readable svc pre = completed_prefix svc (pre ++ bad :: post) ++ skipped
      /\ loop_exit svc (pre ++ bad :: post) = Some e'
      /\ (forallb (fun d => encodable (doc_key d)) (readable svc pre) = true ->
          skipped = [] /\ e' = e
          /\ loop_exit svc pre = None
          /\ completed_prefix svc pre = completed_prefix svc (pre ++ bad :: post)).
Proof.
  intros Hbad. induction pre as [|r pre IH]; intros Hpre.
  - exists [], e. cbn [app completed_prefix loop_exit readable flat_map].
    rewrite Hbad. split; [reflexivity|]. split; [reflexivity|]. intros _. auto.
  - cbn [first_unreadable] in Hpre. unfold readable.
    cbn [app completed_prefix loop_exit flat_map forallb].
    destruct (read_record svc r) as [d|]; [|discriminate].
    fold (readable svc pre). cbn [app].
    destruct (encodable (doc_key d)) eqn:Hd.
    + destruct (IH Hpre) as (skipped & e' & Hsplit & Hexit & Hall).
      exists skipped, e'. split; [cbn [app]; now rewrite Hsplit|]. split; [exact Hexit|].
      cbn [forallb]. rewrite Hd. cbn [andb]. intros Hkeys.
      destruct (Hall Hkeys) as (-> & -> & -> & ->). auto.
    + exists (d :: readable svc pre), UnicodeEncodeError.
      split; [reflexivity|]. split; [reflexivity|].
      cbn [forallb]. rewrite Hd. discriminate.
Qed.

(** C9: when a record of an envelope cannot be read, the envelope ends with
    one failure entry that has no document field; the state it is added to
    is the one reached by earlier records alone, whose entries are those of
    their runs and are kept; the record and the later ones add no entry and
    no call.  When the keys of the earlier records can be printed, all of
    them are handled and the entry is that of the exception of the record
    that cannot be read. *)
Theorem unreadable_record_ends_envelope (svc : services) (st : state) (env : json)
  (pre post : list json) (bad : json) (e : exn) :
  unwrap_envelope env = Ok (pre ++ bad :: post) ->
  first_unreadable svc pre = None ->
  read_record svc bad = Raise e ->
  exists docs skipped e' rs es,
    let st' := handle_documents svc docs st in
    readable svc pre = docs ++ skipped
    /\ grows st st' rs es
    /\ document_entries (outcomes svc docs (hist st)) rs es
    /\ hist st' = history_after svc docs (hist st)
    /\ handle_envelope svc st env = add_error st' (hist st') (envelope_error_entry e')
    /\ results (handle_envelope svc st env) = results st'
    /\ errors (handle_envelope svc st env) = errors st' ++ [envelope_error_entry e']
    /\ hist (handle_envelope svc st env) = hist st'
    /\ entry_document (envelope_error_entry e') = None
    /\ (forallb (fun d => encodable (doc_key d)) (readable svc pre) = true ->
        skipped = [] /\ e' = e /\ process_records svc pre st = (None, st')).
Proof.
  intros Hunwrap Hpre Hbad.
  destruct (loop_reaches svc bad post e Hbad pre Hpre)
    as (skipped & e' & Hsplit & Hexit & Hall).
  destruct (handle_documents_entries svc (completed_prefix svc (pre ++ bad :: post)) st
              (completed_prefix_encodable svc _))
    as (rs & es & Hg & Hdocs & Hh).
  exists (completed_prefix svc (pre ++ bad :: post)), skipped, e', rs, es.
  cbv zeta.
  assert (Henv : handle_envelope svc st env
                 = add_error (handle_documents svc (completed_prefix svc (pre ++ bad :: post)) st)
                     (hist (handle_documents svc
                              (completed_prefix svc (pre ++ bad :: post)) st))
                     (envelope_error_entry e')).
  { rewrite handle_envelope_completed. unfold completed, envelope_exit.
    rewrite Hunwrap, Hexit. reflexivity. }
  split; [exact Hsplit|]. split; [exact Hg|]. split; [exact Hdocs|].
  split; [exact Hh|]. split; [exact Henv|].
  rewrite Henv. split; [reflexivity|]. split; [reflexivity|]. split; [reflexivity|].
  split; [reflexivity|].
  intros Hkeys. destruct (Hall Hkeys) as (Hs & He & Hnone & Hsame).
  split; [exact Hs|]. split; [exact He|].
  now rewrite process_records_prefix, Hnone, Hsame.
Qed.

(** [unreadable_record_ends_envelope] on the envelope whose second record
    has no fields. *)
Lemma unreadable_record_ends_envelope_witness :
  let st := {| results := []; errors := []; hist := [] |} in
  exists docs skipped e' rs es,
    let st' := handle_documents Fixture.world docs st in
    readable Fixture.world [Fixture.s3_record "b" "a.pdf" "t0"] = docs ++ skipped
    /\ grows st st' rs es
    /\ document_entries (outcomes Fixture.world docs (hist st)) rs es
    /\ hist st' = history_after Fixture.world docs (hist st)
    /\ handle_envelope Fixture.world st Batches.unreadable_sibling
       = add_error st' (hist st') (envelope_error_entry e')
    /\ results (handle_envelope Fixture.world st Batches.unreadable_sibling) = results st'
    /\ errors (handle_envelope Fixture.world st Batches.unreadable_sibling)
       = errors st' ++ [envelope_error_entry e']
    /\ hist (handle_envelope Fixture.world st Batches.unreadable_sibling) = hist st'
    /\ entry_document (envelope_error_entry e') = None
    /\ (forallb (fun d => encodable (doc_key d))
          (readable Fixture.world [Fixture.s3_record "b" "a.pdf" "t0"]) = true ->
        skipped = [] /\ e' = KeyError (py "s3")
        /\ process_records Fixture.world [Fixture.s3_record "b" "a.pdf" "t0"] st
           = (None, st')).
Proof.
  intros st.
  apply (unreadable_record_ends_envelope Fixture.world st Batches.unreadable_sibling
           [Fixture.s3_record "b" "a.pdf" "t0"] [Fixture.s3_record "b" "c.pdf" "t0"]
           (JObject []) (KeyError (py "s3")));
    vm_compute; reflexivity.
Defined.

(** C4: the record is the fixed fields with every extracted property
    assigned over them in enumeration order, so a key of the extracted
    properties holds its extracted value in the record, also when it is the
    name of a fixed field; a key that is not extracted keeps its fixed
    value. *)
Theorem extracted_properties_override_fixed_fields :
  (forall (svc : services) b k t h record h',
      process_document svc b k t h = (Ok record, h') ->
      exists record_id processing_time file_hash content_type size page_count props,
        record = merge_properties
                   (add_page_count
                      (fixed_fields record_id k b t processing_time file_hash
                         size content_type)
                      page_count)
                   props
        /\ (exists prompt content h0,
              fst (invoke_bedrock_with_document svc prompt content content_type h0)
              = Ok (JObject props))
        /\ forall name value,
             In (name, value) props -> dict_get record name = Some value)
  /\ (forall (record : dict) (props : list (str * json)) (k : str) (v : json),
      NoDup (keys props) -> In (k, v) props ->
      dict_get (merge_properties record props) k = Some v)
  /\ (forall (record : dict) (props : list (str * json)) (k : str),
      ~ In k (keys props) ->
      dict_get (merge_properties record props) k = dict_get record k)
  /\ dict_get
       (merge_properties
          [ (py "bucket", JString (py "b")); (py "document_name", JString (py "k")) ]
          [ (py "bucket", JString (py "override")) ])
       (py "bucket") = Some (JString (py "override")).
Proof.
  split; [|split; [|split]].
  - intros svc b k t h record h' H.
    pose proof (process_document_record svc b k t h) as Hrec.
    rewrite H in Hrec.
    destruct Hrec as (rid & pt & fh & ct & sz & pc & props & -> & Hnd & Hext).
    exists rid, pt, fh, ct, sz, pc, props.
    split; [reflexivity|]. split; [exact Hext|].
    intros name value Hin. now apply merge_properties_wins.
  - exact merge_properties_wins.
  - intros record props k Hnot. rewrite merge_properties_get.
    destruct (dict_get (rev props) k) as [v|] eqn:E; [|reflexivity].
    exfalso. apply Hnot. clear Hnot.
    assert (Hin : forall d, dict_get d k = Some v -> In k (keys d)).
    { induction d as [|[k' v'] d IH]; simpl; [discriminate|].
      destruct (str_eqb k' k) eqn:E'; [|intros; right; now apply IH].
      intros _. left. now apply str_eqb_eq. }
    apply Hin in E. rewrite keys_rev in E. now apply in_rev in E.
  - reflexivity.
Qed.

(** [extracted_properties_override_fixed_fields] on a stored document whose
    completion names a [bucket]: the record holds the extracted bucket, and
    its title; its document name is the fixed one. *)
Lemma extracted_properties_override_fixed_fields_witness :
  (exists record h',
      process_document Fixture.world (JString (py "b")) (py "a.pdf") (JString (py "t0")) []
      = (Ok record, h')
      /\ dict_get record (py "bucket") = Some (JString (py "override"))
      /\ dict_get record (py "document_name") = Some (JString (py "a.pdf")))
  /\ dict_get
       (merge_properties
          (fixed_fields (py "i") (py "k") (JString (py "b")) JNull (py "now") (py "h") 0
             (py "text/plain"))
          [ (py "id", JInt 7); (py "title", JNull) ])
       (py "id") = Some (JInt 7)
  /\ dict_get
       (merge_properties
          (fixed_fields (py "i") (py "k") (JString (py "b")) JNull (py "now") (py "h") 0
             (py "text/plain"))
          [ (py "id", JInt 7); (py "title", JNull) ])
       (py "bucket") = Some (JString (py "b")).
Proof.
  destruct extracted_properties_override_fixed_fields as (Hbuilt & Hwins & Hkeeps & _).
  split; [|split].
  - destruct (process_document Fixture.world (JString (py "b")) (py "a.pdf")
                (JString (py "t0")) []) as [[record|e] h'] eqn:E;
      [|vm_compute in E; discriminate].
    exists record, h'. split; [reflexivity|].
    destruct (Hbuilt _ _ _ _ _ _ _ E) as (rid & pt & fh & ct & sz & pc & props & _).
    vm_compute in E. injection E as <- _. split; reflexivity.
  - apply Hwins.
    + repeat constructor; simpl; intuition discriminate.
    + left. reflexivity.
  - rewrite Hkeeps; [reflexivity|].
    simpl. intuition discriminate.
Defined.

(** C5: a call of [process_document] that returns has written exactly once,
    the record it returns; a call that raises has written nothing, unless
    the failure is that of the write itself; no call writes twice.  (The
    failure of a fetch is named as such when the first line of the function
    could be printed.) *)
Theorem process_document_writes (svc : services) (b : json) (k : str) (t : json)
  (h h' : history) (r : result dict) :
  process_document svc b k t h = (r, h') ->
  match r with
  | Ok record => put_items h' = put_items h ++ [record]
  | Raise e =>
      (stage_of e <> Some Persistence -> put_items h' = put_items h)
      /\ (stage_of e = Some Fetch -> put_items h' = put_items h)
      /\ (stage_of e = Some Extraction -> put_items h' = put_items h)
      /\ (forall c, printable_document b k = true ->
            s3_get_object svc h b k = Raise c ->
            stage_of e = Some Fetch /\ put_items h' = put_items h)
      /\ exists items, put_items h' = put_items h ++ items /\ (length items <= 1)%nat
  end.
Proof.
  intros H. pose proof (process_document_put_items svc b k t h) as Hput.
  rewrite H in Hput. destruct r as [record|e]; [exact Hput|].
  assert (Hfetch : forall c, printable_document b k = true ->
                             s3_get_object svc h b k = Raise c ->
                             stage_of e = Some Fetch /\ put_items h' = put_items h).
  { intros c Hp Hc. revert H. pd_unfold. rewrite Hp, Hc. cbn beta iota.
    intros H. injection H as <- <-. split; [reflexivity|].
    trace_simpl. reflexivity. }
  split; [|split; [|split; [|split; [exact Hfetch|]]]].
  - intros Hs. destruct Hput as [Hzero|(Hstage & _)]; [exact Hzero|congruence].
  - intros Hs. destruct Hput as [Hzero|(Hstage & _)]; [exact Hzero|congruence].
  - intros Hs. destruct Hput as [Hzero|(Hstage & _)]; [exact Hzero|congruence].
  - destruct Hput as [Hzero|(_ & item & Hone)].
    + exists []. rewrite app_nil_r. split; [exact Hzero|simpl; lia].
    + exists [item]. split; [exact Hone|simpl; lia].
Qed.

(** [process_document_writes] on a document that is stored, one that cannot
    be fetched, one for which the extraction service fails, and one whose
    completion does not decode. *)
Lemma process_document_writes_witness :
  (exists record h',
      process_document Fixture.world (JString (py "b")) (py "a.pdf") (JString (py "t0")) []
      = (Ok record, h')
      /\ put_items h' = put_items [] ++ [record])
  /\ (exists e h',
      process_document Fixture.world (JString (py "b")) (py "missing.pdf")
        (JString (py "t0")) [] = (Raise e, h')
      /\ stage_of e = Some Fetch /\ put_items h' = put_items [])
  /\ (exists e h',
      process_document Fixture.world (JString (py "b")) (py "empty.txt")
        (JString (py "t0")) [] = (Raise e, h')
      /\ stage_of e = Some Extraction /\ put_items h' = put_items [])
  /\ (exists e h',
      process_document Fixture.world (JString (py "b")) (py "prose.pdf")
        (JString (py "t0")) [] = (Raise e, h')
      /\ stage_of e = Some Extraction /\ put_items h' = put_items []).
Proof.
  split; [|split; [|split]].
  - destruct (process_document Fixture.world (JString (py "b")) (py "a.pdf")
                (JString (py "t0")) []) as [[record|e] h'] eqn:E;
      [|vm_compute in E; discriminate].
    exists record, h'. split; [reflexivity|].
    exact (process_document_writes _ _ _ _ _ _ _ E).
  - destruct (process_document Fixture.world (JString (py "b")) (py "missing.pdf")
                (JString (py "t0")) []) as [[record|e] h'] eqn:E;
      [vm_compute in E; discriminate|].
    exists e, h'. split; [reflexivity|].
    assert (Hs : stage_of e = Some Fetch) by (vm_compute in E; now injection E as <- _).
    split; [exact Hs|].
    destruct (process_document_writes _ _ _ _ _ _ _ E) as (_ & Hfetch & _).
    exact (Hfetch Hs).
  - destruct (process_document Fixture.world (JString (py "b")) (py "empty.txt")
                (JString (py "t0")) []) as [[record|e] h'] eqn:E;
      [vm_compute in E; discriminate|].
    exists e, h'. split; [reflexivity|].
    assert (Hs : stage_of e = Some Extraction) by (vm_compute in E; now injection E as <- _).
    split; [exact Hs|].
    destruct (process_document_writes _ _ _ _ _ _ _ E) as (_ & _ & Hext & _).
    exact (Hext Hs).
  - destruct (process_document Fixture.world (JString (py "b")) (py "prose.pdf")
                (JString (py "t0")) []) as [[record|e] h'] eqn:E;
      [vm_compute in E; discriminate|].
    exists e, h'. split; [reflexivity|].
    assert (Hs : stage_of e = Some Extraction) by (vm_compute in E; now injection E as <- _).
    split; [exact Hs|].
    destruct (process_document_writes _ _ _ _ _ _ _ E) as (_ & _ & Hext & _).
    exact (Hext Hs).
Defined.

(** ** The templates *)

(** C7, as the specification states it, fails: in one run of the handler on
    two documents the schema file is opened twice. *)
Lemma templates_are_not_loaded_once :
  ~ loaded_once Fixture.world Batches.two_documents.
Proof.
  unfold loaded_once. intros [Hschema _]. vm_compute in Hschema.
  apply Nat.leb_le in Hschema. vm_compute in Hschema. discriminate.
Qed.

(** C7, amended: every call of [process_document] whose document is fetched
    (its first line printed and the object store answering) opens the schema
    file again, and a call that succeeds has opened the
    schema file and the prompt file once each; what the two loaders return
    does not depend on when they are called. *)
Theorem templates_are_read_for_every_document (svc : services) :
  (forall b k t h content,
      printable_document b k = true ->
      s3_get_object svc h b k = Ok content ->
      exists rest,
        opened (snd (process_document svc b k t h)) = opened h ++ SCHEMA_FILE :: rest
        /\ (rest = [] \/ rest = [PROMPT_FILE]))
  /\ (forall b k t h record h',
      process_document svc b k t h = (Ok record, h') ->
      opened h' = opened h ++ [SCHEMA_FILE; PROMPT_FILE])
  /\ (forall h1 h2 : history,
      fst (load_schema svc h1) = fst (load_schema svc h2)
      /\ fst (load_prompt_template svc h1) = fst (load_prompt_template svc h2)).
Proof.
  split; [|split].
  - intros b k t h content Hprint Hfetch.
    pd_cases; try congruence; cbn [snd]; trace_simpl; rewrite <- ?app_assoc;
      cbn [app]; eexists; split; try reflexivity; auto.
  - intros b k t h record h'.
    pd_cases; intros H; try discriminate; injection H as _ <-;
      trace_simpl; rewrite <- ?app_assoc; reflexivity.
  - intros h1 h2. unfold load_schema, load_prompt_template, rewrap, bind, call, lift.
    cbn beta iota.
    destruct (read_file svc SCHEMA_FILE); destruct (read_file svc PROMPT_FILE);
      cbn; try destruct (json_loads _); split; reflexivity.
Qed.

(** [templates_are_read_for_every_document] on a stored document, run after
    another one: the two files are opened again. *)
Lemma templates_are_read_for_every_document_witness :
  let h := snd (process_document Fixture.world (JString (py "b")) (py "a.pdf")
                  (JString (py "t0")) []) in
  opened h = [SCHEMA_FILE; PROMPT_FILE]
  /\ (exists rest,
        opened (snd (process_document Fixture.world (JString (py "b")) (py "c.pdf")
                       (JString (py "t0")) h))
        = opened h ++ SCHEMA_FILE :: rest
        /\ (rest = [] \/ rest = [PROMPT_FILE])).
Proof.
  intros h.
  destruct (templates_are_read_for_every_document Fixture.world) as (Hopen & Hboth & _).
  split.
  - destruct (process_document Fixture.world (JString (py "b")) (py "a.pdf")
                (JString (py "t0")) []) as [[record|e] h'] eqn:E;
      [|vm_compute in E; discriminate].
    exact (Hboth _ _ _ _ _ _ E).
  - apply (Hopen (JString (py "b")) (py "c.pdf") (JString (py "t0")) h
             ([Byte.x25; Byte.x50], Some (py "application/pdf")));
      reflexivity.
Defined.

(** ** Structural inspection *)

(** C8: [get_page_count] returns on every content and content type; it
    returns [None] when the content type does not mention pdf, and when
    the parse of the document raises. *)
Theorem get_page_count_never_raises (svc : services) (content : bytes)
  (content_type : str) :
  (exists v, get_page_count svc content content_type = Ok v)
  /\ (contains (py "pdf") (lower content_type) = false ->
      get_page_count svc content content_type = Ok None)
  /\ (forall e, pdf_page_count svc content = Raise e ->
      get_page_count svc content content_type = Ok None)
  /\ (forall n, contains (py "pdf") (lower content_type) = true ->
      pdf_page_count svc content = Ok n ->
      get_page_count svc content content_type = Ok (Some n)).
Proof.
  unfold get_page_count, get_page_count_try.
  destruct (contains (py "pdf") (lower content_type)) eqn:Hpdf;
    destruct (pdf_page_count svc content) as [n|e] eqn:Hparse; cbn;
    repeat split; eauto; intros; congruence.
Qed.

(** [get_page_count_never_raises] on a text file, on a PDF that does not
    parse, and on one that does. *)
Lemma get_page_count_never_raises_witness :
  get_page_count Fixture.world [] (py "text/plain") = Ok None
  /\ get_page_count Fixture.world [Byte.x00] (py "Application/PDF") = Ok None
  /\ get_page_count Fixture.world [Byte.x25; Byte.x50] (py "application/pdf")
     = Ok (Some 2%nat).
Proof.
  split; [|split].
  - destruct (get_page_count_never_raises Fixture.world [] (py "text/plain"))
      as (_ & Hplain & _).
    apply Hplain. reflexivity.
  - destruct (get_page_count_never_raises Fixture.world [Byte.x00] (py "Application/PDF"))
      as (_ & _ & Hcorrupt & _).
    apply (Hcorrupt (ServiceError (py "not a PDF"))). reflexivity.
  - destruct (get_page_count_never_raises Fixture.world [Byte.x25; Byte.x50]
                (py "application/pdf")) as (_ & _ & _ & Hpages).
    apply Hpages; reflexivity.
Defined.

(** * Further properties of the program *)

(** X1: the only exceptions that leave [lambda_handler] are the [KeyError]
    of an event without [Records] and the [TypeError] of an event, or a
    [Records] value, that cannot be subscripted or iterated; they are raised
    before any service is called.  No failure of a service, of a template or
    of a decoding leaves the handler. *)
Theorem lambda_handler_escapes (svc : services) (event : json) (h h' : history)
  (e : exn) :
  lambda_handler svc event h = (Raise e, h') ->
  h' = h /\ (e = KeyError (py "Records") \/ e = TypeError).
Proof.
  unfold lambda_handler, rbind, subscript.
  destruct event; try (intros H; injection H as <- <-; auto).
  destruct (dict_get members (py "Records")) as [records|].
  - destruct (iterate records) as [envs|e0] eqn:E; [discriminate|].
    intros H. injection H as <- <-. split; [reflexivity|].
    destruct records; simpl in E; try discriminate; injection E as <-; auto.
  - intros H. injection H as <- <-. auto.
Qed.

(** [lambda_handler_escapes] on the empty event. *)
Lemma lambda_handler_escapes_witness :
  [] = ([] : history)
  /\ (KeyError (py "Records") = KeyError (py "Records")
      \/ KeyError (py "Records") = TypeError).
Proof.
  apply (lambda_handler_escapes Fixture.world (JObject []) [] [] (KeyError (py "Records"))).
  reflexivity.
Defined.

(** X2: [invoke_bedrock_with_document] calls the extraction service exactly
    once; every failure (of the call, of the decoding of the response body,
    of the access to its first content block, of the parsing of its text)
    is raised as an [Exception] whose message starts with the function's
    prefix; a value is returned only as the parse of the text of the first
    content block. *)
Theorem invoke_bedrock_wraps_failures (svc : services) (prompt : str)
  (content : bytes) (media_type : str) (h : history) :
  snd (invoke_bedrock_with_document svc prompt content media_type h)
  = h ++ [InvokeModel prompt content media_type]
  /\ match fst (invoke_bedrock_with_document svc prompt content media_type h) with
     | Ok v =>
         exists body d block rest text,
           invoke_model svc h prompt content media_type = Ok body
           /\ json_decode body = Some (JObject d)
           /\ dict_get d (py "content") = Some (JArray (block :: rest))
           /\ subscript block "text" = Ok (JString text)
           /\ parse_json_response text = Ok v
     | Raise e =>
         exists cause,
           e = Exception (py "Failed to invoke Bedrock with document: " ++ exn_str cause)
     end.
Proof.
  unfold invoke_bedrock_with_document, rewrap, bind, call, lift. cbn beta iota.
  destruct (invoke_model svc h prompt content media_type) as [body|c] eqn:Hcall;
    cbn beta iota; [|split; [reflexivity|cbn [fst]; eauto]].
  destruct (read_completion body) as [v|c] eqn:Hread; cbn [fst snd];
    (split; [reflexivity|]); [|eauto].
  unfold read_completion, rbind, loads, json_loads in Hread.
  destruct (json_decode body) as [response_body|] eqn:Hbody; [|discriminate].
  unfold subscript at 1 in Hread.
  destruct response_body as [| | | | | |d]; try discriminate.
  destruct (dict_get d (py "content")) as [blocks|] eqn:Hblocks; [|discriminate].
  destruct blocks as [| | | |s|l|d']; cbn [subscript0] in Hread; try discriminate.
  - destruct s as [|c0 s]; [discriminate|]. cbn in Hread. discriminate.
  - destruct l as [|block rest]; [discriminate|].
    destruct (subscript block "text") as [content0|] eqn:Htext; [|discriminate].
    destruct content0; try discriminate. cbn [parse_completion] in Hread.
    exists body, d, block, rest, s. auto.
Qed.

Lemma app_one_assoc {A} (l : list A) (x : A) (r : list A) : (l ++ [x]) ++ r = l ++ x :: r.
Proof. now rewrite <- app_assoc. Qed.

Lemma load_schema_ok (svc : services) (text : str) (schema : json) (h : history) :
  read_file svc SCHEMA_FILE = Ok text -> loads (JString text) = Ok schema ->
  load_schema svc h = (Ok schema, h ++ [OpenFile SCHEMA_FILE]).
Proof.
  intros Hr Hl. unfold load_schema, rewrap, bind, call, lift. cbn beta iota.
  rewrite Hr. cbn beta iota. now rewrite Hl.
Qed.

Lemma load_prompt_template_ok (svc : services) (template : str) (h : history) :
  read_file svc PROMPT_FILE = Ok template ->
  load_prompt_template svc h = (Ok template, h ++ [OpenFile PROMPT_FILE]).
Proof.
  intros Hr. unfold load_prompt_template, rewrap, call. now rewrite Hr.
Qed.

(** X3: the calls of one [process_document] are an initial part of the
    sequence fetch, open schema, open prompt, invoke, uuid, clock, write,
    never stopping between uuid and clock.  The part is empty exactly when
    the first line of the function cannot be printed, and the exception is
    then that of [print]; all seven calls are made when the function
    returns, and when all seven are made and it raises the failure is that
    of the write.  From the fourth call on, the service is invoked with the
    fetched bytes, their content type (or the default one) and the prompt
    rendered from the two templates. *)
Theorem process_document_call_order (svc : services) (b : json) (k : str) (t : json)
  (h : history) :
  exists n prompt content media_type record,
    snd (process_document svc b k t h)
    = h ++ firstn n (full_run b k prompt content media_type record)
    /\ (n <= 7)%nat /\ n <> 5%nat
    /\ (n = 0%nat <-> printable_document b k = false)
    /\ (n = 0%nat -> fst (process_document svc b k t h) = Raise UnicodeEncodeError)
    /\ (forall r, fst (process_document svc b k t h) = Ok r -> n = 7%nat /\ record = r)
    /\ (n = 7%nat -> forall e, fst (process_document svc b k t h) = Raise e ->
          stage_of e = Some Persistence)
    /\ ((4 <= n)%nat ->
        exists ct schema template,
          s3_get_object svc h b k = Ok (content, ct)
          /\ media_type
             = match ct with Some x => x | None => py "application/octet-stream" end
          /\ fst (load_schema svc []) = Ok schema
          /\ fst (load_prompt_template svc []) = Ok template
          /\ format_prompt svc template schema = Ok prompt).
Proof.
  pd_cases; cbn [fst snd]; rewrite ?app_one_assoc.
  all: first
    [ match goal with
      | H : printable_document _ _ = false |- _ => exists 0%nat, [], [], [], []
      end
    | match goal with
      | |- context [PutItem ?r] =>
          match goal with
          | |- context [InvokeModel ?p ?c ?m] => exists 7%nat, p, c, m, r
          end
      end
    | match goal with
      | |- context [UtcNow] =>
          match goal with
          | |- context [InvokeModel ?p ?c ?m] => exists 6%nat, p, c, m, []
          end
      end
    | match goal with
      | |- context [InvokeModel ?p ?c ?m] => exists 4%nat, p, c, m, []
      end
    | match goal with
      | |- context [OpenFile PROMPT_FILE] => exists 3%nat, [], [], [], []
      end
    | match goal with
      | |- context [OpenFile SCHEMA_FILE] => exists 2%nat, [], [], [], []
      end
    | exists 1%nat, [], [], [], [] ].
  all: split; [first [reflexivity | cbn [firstn]; now rewrite app_nil_r]|].
  all: split; [lia|]. all: split; [lia|].
  all: split; [split; intros; first [lia | congruence | reflexivity]|].
  all: split; [intros Hn; first [lia | reflexivity]|].
  all: split; [intros r Hr; try discriminate; injection Hr as <-; auto|].
  all: split; [intros Hn e' He; try lia; try discriminate; injection He as <-;
               reflexivity|].
  all: intros Hn; try lia.
  all: match goal with
       | Hs : s3_get_object _ _ _ _ = Ok (_, ?ct),
         Hl : loads (JString _) = Ok ?schema,
         Hp : read_file _ PROMPT_FILE = Ok ?template |- _ =>
           exists ct, schema, template;
           repeat (split; [first [reflexivity|assumption]|]);
           first [reflexivity|assumption]
       end.
Qed.

Lemma invoked_app (a b : history) : invoked (a ++ b) = invoked a ++ invoked b.
Proof. apply flat_map_app. Qed.

Lemma handle_documents_invariant (svc : services) (P : state -> Prop) :
  (forall st b k t, encodable k = true -> P st ->
                    P (snd (handle_document svc b k t st))) ->
  forall docs st,
    Forall (fun d => encodable (doc_key d) = true) docs ->
    P st -> P (handle_documents svc docs st).
Proof.
  intros Hdoc. induction docs as [|[[b k] t] docs IH]; intros st Hkeys Hst; [exact Hst|].
  inversion Hkeys as [|d ds Hk Hrest]; subst.
  rewrite handle_documents_cons. apply IH; [exact Hrest|]. now apply Hdoc.
Qed.

Lemma handle_envelopes_invariant (svc : services) (P : state -> Prop) :
  (forall st b k t, encodable k = true -> P st ->
                    P (snd (handle_document svc b k t st))) ->
  (forall st e, P st -> P (add_error st (hist st) (envelope_error_entry e))) ->
  forall envelopes st, P st -> P (handle_envelopes svc envelopes st).
Proof.
  intros Hdoc Henv. induction envelopes as [|env rest IH]; intros st Hst; [exact Hst|].
  unfold handle_envelopes. cbn [fold_left]. apply IH.
  rewrite handle_envelope_completed. cbv zeta.
  pose proof (handle_documents_invariant svc P Hdoc (completed svc env) st
                (completed_encodable svc env) Hst) as H.
  destruct (envelope_exit svc env); [now apply Henv|exact H].
Qed.

Lemma load_schema_failure (svc : services) (e0 : exn) :
  fst (load_schema svc []) = Raise e0 ->
  exists cause,
    e0 = Exception (py "Failed to load schema from schema.json: " ++ exn_str cause)
    /\ (read_file svc SCHEMA_FILE = Raise cause
        \/ exists text, read_file svc SCHEMA_FILE = Ok text
                        /\ loads (JString text) = Raise cause).
Proof.
  unfold load_schema, rewrap, bind, call, lift. cbn beta iota.
  destruct (read_file svc SCHEMA_FILE) as [text|c] eqn:Hr; cbn beta iota.
  - destruct (loads (JString text)) as [v|c] eqn:Hl; cbn [fst]; [discriminate|].
    intros H. injection H as <-. exists c. split; [reflexivity|]. right. eauto.
  - cbn [fst]. intros H. injection H as <-. exists c. split; [reflexivity|]. now left.
Qed.

Lemma process_document_schema_failure (svc : services) (e0 : exn) (b : json)
  (k : str) (t : json) (h : history) :
  fst (load_schema svc []) = Raise e0 ->
  process_document svc b k t h =
  if printable_document b k then
    match s3_get_object svc h b k with
    | Ok _ => (Raise e0, h ++ [GetObject b k; OpenFile SCHEMA_FILE])
    | Raise c =>
        (Raise (Exception (py "Failed to download document from S3: " ++ exn_str c)),
         h ++ [GetObject b k])
    end
  else (Raise UnicodeEncodeError, h).
Proof.
  intros H. destruct (load_schema_failure svc e0 H) as (cause & -> & Hcause).
  pd_unfold. destruct (printable_document b k); [|reflexivity].
  cbn beta iota.
  destruct (s3_get_object svc h b k) as [[content ct]|c]; [|reflexivity].
  cbn beta iota.
  destruct (get_page_count_ok svc content
              match ct with Some t0 => t0 | None => py "application/octet-stream" end)
    as [pc ->].
  cbn beta iota.
  destruct Hcause as [Hr|(text & Hr & Hl)]; rewrite Hr; cbn beta iota.
  - now rewrite <- app_assoc.
  - rewrite Hl. cbn beta iota. now rewrite <- app_assoc.
Qed.

(** X4: when the schema cannot be loaded, the failure is an [Exception] with
    the loader's prefix; every [process_document] whose document is fetched
    (its first line printed and the object store answering) raises it right
    after opening the schema file; and [lambda_handler]
    still returns, with no success entry, no invocation of the extraction
    service and no write. *)
Theorem unreadable_schema_fails_every_document (svc : services) (e0 : exn) :
  fst (load_schema svc []) = Raise e0 ->
  (exists cause,
      e0 = Exception (py "Failed to load schema from schema.json: " ++ exn_str cause))
  /\ (forall b k t h content,
        printable_document b k = true ->
        s3_get_object svc h b k = Ok content ->
        process_document svc b k t h
        = (Raise e0, h ++ [GetObject b k; OpenFile SCHEMA_FILE]))
  /\ (forall envelopes h,
        exists es h',
          lambda_handler svc (batch envelopes) h = (Ok (response_of [] es), h')
          /\ invoked h' = invoked h
          /\ put_items h' = put_items h).
Proof.
  intros H. split; [|split].
  - destruct (load_schema_failure svc e0 H) as (cause & Hc & _). eauto.
  - intros b k t h content Hp Hs.
    now rewrite (process_document_schema_failure svc e0 b k t h H), Hp, Hs.
  - intros envelopes h.
    assert (Hinv : forall st,
               results st = [] /\ invoked (hist st) = invoked h
               /\ put_items (hist st) = put_items h ->
               results (handle_envelopes svc envelopes st) = []
               /\ invoked (hist (handle_envelopes svc envelopes st)) = invoked h
               /\ put_items (hist (handle_envelopes svc envelopes st)) = put_items h).
    { apply (handle_envelopes_invariant svc
               (fun st => results st = [] /\ invoked (hist st) = invoked h
                          /\ put_items (hist st) = put_items h)).
      - intros st b k t Hk (Hr & Hi & Hp).
        destruct (handle_document_entry svc b k t st Hk) as (st' & -> & Hh & Hone).
        cbn [snd]. rewrite Hh.
        rewrite (process_document_schema_failure svc e0 b k t (hist st) H) in *.
        assert (Hlists : results st' = []).
        { destruct Hone as [(record & rid & Hrun & _)|(e & _ & Hrs & _)];
            [|now rewrite Hrs].
          destruct (printable_document b k); [|discriminate].
          destruct (s3_get_object svc (hist st) b k); discriminate. }
        split; [exact Hlists|].
        destruct (printable_document b k); [|auto].
        destruct (s3_get_object svc (hist st) b k); cbn [snd];
          rewrite invoked_app, put_items_app, Hi, Hp; cbn; rewrite !app_nil_r; auto.
      - intros st e Hst. exact Hst. }
    exists (errors (final_state svc envelopes h)), (hist (final_state svc envelopes h)).
    rewrite lambda_handler_batch.
    destruct (Hinv {| results := []; errors := []; hist := h |}) as (Hr & Hi & Hp);
      [cbn; auto|].
    fold (final_state svc envelopes h) in Hr, Hi, Hp. rewrite Hr. auto.
Qed.

(** [unreadable_schema_fails_every_document] in the world without schema
    file. *)
Lemma unreadable_schema_fails_every_document_witness :
  exists es h',
    lambda_handler Worlds.no_schema (batch Batches.two_documents) [] 
    = (Ok (response_of [] es), h')
    /\ invoked h' = invoked [] /\ put_items h' = put_items [].
Proof.
  destruct (unreadable_schema_fails_every_document Worlds.no_schema
              (Exception (py "Failed to load schema from schema.json: No such file")))
    as (_ & _ & Hbatch).
  - reflexivity.
  - exact (Hbatch Batches.two_documents []).
Defined.

Lemma handle_document_prepend (svc : services) (rs es : list json) (b : json)
  (k : str) (t : json) (st : state) :
  handle_document svc b k t (prepend rs es st)
  = (fst (handle_document svc b k t st),
     prepend rs es (snd (handle_document svc b k t st))).
Proof.
  unfold handle_document, except_document. cbn [prepend hist].
  destruct (process_document svc b k t (hist st)) as [[record|e] h'].
  - destruct (subscript (JObject record) "id"); [|destruct (print _)];
      unfold add_result, add_error, prepend; cbn [fst snd results errors hist];
      now rewrite ?app_assoc.
  - destruct (print _);
      unfold add_error, prepend; cbn [fst snd results errors hist];
      now rewrite ?app_assoc.
Qed.

Lemma handle_documents_prepend (svc : services) (rs es : list json) :
  forall docs st,
    handle_documents svc docs (prepend rs es st)
    = prepend rs es (handle_documents svc docs st).
Proof.
  induction docs as [|[[b k] t] docs IH]; intros st; [reflexivity|].
  rewrite !handle_documents_cons. cbn [fst snd].
  rewrite handle_document_prepend. cbn [snd]. apply IH.
Qed.

Lemma handle_envelopes_prepend (svc : services) (rs es : list json) :
  forall envelopes st,
    handle_envelopes svc envelopes (prepend rs es st)
    = prepend rs es (handle_envelopes svc envelopes st).
Proof.
  induction envelopes as [|env rest IH]; intros st; [reflexivity|].
  unfold handle_envelopes. cbn [fold_left].
  rewrite !handle_envelope_completed. cbv zeta.
  rewrite handle_documents_prepend.
  destruct (envelope_exit svc env).
  - replace (add_error (prepend rs es (handle_documents svc (completed svc env) st))
               (hist (prepend rs es (handle_documents svc (completed svc env) st)))
               (envelope_error_entry e))
      with (prepend rs es
              (add_error (handle_documents svc (completed svc env) st)
                 (hist (handle_documents svc (completed svc env) st))
                 (envelope_error_entry e))).
    + apply IH.
    + unfold add_error, prepend. cbn [results errors hist]. now rewrite app_assoc.
  - apply IH.
Qed.

(** X5: handling a batch is handling its first part and then, in the world
    that this leaves, its second part: the two lists of the whole batch are
    those of the parts, one after the other. *)
Theorem lambda_handler_splits (svc : services) (first second : list json)
  (h : history) :
  exists rs1 es1 h1 rs2 es2 h2,
    lambda_handler svc (batch first) h = (Ok (response_of rs1 es1), h1)
    /\ lambda_handler svc (batch second) h1 = (Ok (response_of rs2 es2), h2)
    /\ lambda_handler svc (batch (first ++ second)) h
       = (Ok (response_of (rs1 ++ rs2) (es1 ++ es2)), h2).
Proof.
  exists (results (final_state svc first h)), (errors (final_state svc first h)),
    (hist (final_state svc first h)).
  exists (results (final_state svc second (hist (final_state svc first h)))),
    (errors (final_state svc second (hist (final_state svc first h)))),
    (hist (final_state svc second (hist (final_state svc first h)))).
  rewrite !lambda_handler_batch. split; [reflexivity|]. split; [reflexivity|].
  assert (Hsplit : final_state svc (first ++ second) h
                   = prepend (results (final_state svc first h))
                       (errors (final_state svc first h))
                       (final_state svc second (hist (final_state svc first h)))).
  { unfold final_state at 1. unfold handle_envelopes. rewrite fold_left_app.
    fold (handle_envelopes svc first {| results := []; errors := []; hist := h |}).
    fold (final_state svc first h).
    fold (handle_envelopes svc second (final_state svc first h)).
    remember (final_state svc first h) as s1 eqn:Es1.
    unfold final_state. rewrite <- handle_envelopes_prepend. f_equal.
    unfold prepend. cbn [results errors hist]. rewrite !app_nil_r.
    now destruct s1. }
  rewrite Hsplit. reflexivity.
Qed.

Lemma reported_documents (os : list (docref * result dict)) (l : list json) :
  Forall2 reports os l -> documents_of l = key_values (map fst os).
Proof.
  induction 1 as [|o entry os l Hone _ IH]; [reflexivity|].
  unfold documents_of in *. cbn [flat_map map key_values].
  rewrite (reports_document o entry Hone), IH. reflexivity.
Qed.

Lemma documents_of_keyed (l : list json) :
  documents_of (filter has_document l) = documents_of l.
Proof.
  unfold documents_of, has_document. induction l as [|x l IH]; [reflexivity|].
  cbn [filter flat_map]. destruct (entry_document x) eqn:E; cbn [flat_map].
  - now rewrite E, IH.
  - exact IH.
Qed.

(** X6: [process_document] is run, one after the other, on the documents
    whose inner [try] runs to its end; the success entries name, in that
    order, the documents whose run returned, and the failure entries that
    have a document name, in that order, those whose run raised. *)
Theorem entries_keep_batch_order (svc : services) (envelopes : list json)
  (h : history) :
  exists rs es h',
    lambda_handler svc (batch envelopes) h = (Ok (response_of rs es), h')
    /\ h' = history_after svc (flat_map (completed svc) envelopes) h
    /\ documents_of rs
       = map (fun d => JString (doc_key d))
           (map fst (filter returned
                       (outcomes svc (flat_map (completed svc) envelopes) h)))
    /\ documents_of es
       = map (fun d => JString (doc_key d))
           (map fst (filter raised
                       (outcomes svc (flat_map (completed svc) envelopes) h))).
Proof.
  destruct (handle_envelopes_entries svc envelopes
              {| results := []; errors := []; hist := h |})
    as (rs & es & [Hr He] & [Hrs Hes] & _ & Hh).
  cbn [results errors hist app] in Hr, He, Hrs, Hes, Hh.
  exists rs, es, (hist (final_state svc envelopes h)).
  split; [|split; [exact Hh|split]].
  - rewrite lambda_handler_batch. unfold final_state. now rewrite Hr, He.
  - exact (reported_documents _ _ Hrs).
  - rewrite <- documents_of_keyed. exact (reported_documents _ _ Hes).
Qed.

Lemma process_document_accepted (svc : services) (b : json) (k : str) (t : json)
  (h : history) :
  match process_document svc b k t h with
  | (Ok record, _) => exists h0, put_item svc h0 record = Ok tt
  | (Raise _, _) => True
  end.
Proof.
  pd_cases; try exact I.
  match goal with
  | H : put_item _ ?h0 _ = Ok ?u |- _ => exists h0; destruct u; exact H
  end.
Qed.

Lemma stored_in_more (svc : services) (written more : list dict) (entry : json) :
  stored_in svc written entry -> stored_in svc (written ++ more) entry.
Proof.
  intros (key & record & rid & He & Hid & Hin & Hok).
  exists key, record, rid. repeat split; auto. apply in_or_app. now left.
Qed.

Lemma handle_document_writes_match (svc : services) (h : history) (st : state)
  (b : json) (k : str) (t : json) :
  encodable k = true ->
  writes_match svc h st -> writes_match svc h (snd (handle_document svc b k t st)).
Proof.
  intros Hk (written & Hput & Hall & Hlen).
  destruct (handle_document_entry svc b k t st Hk) as (st' & -> & Hh & Hone).
  cbn [snd]. unfold writes_match. rewrite Hh.
  pose proof (process_document_put_items svc b k t (hist st)) as Hp.
  pose proof (process_document_accepted svc b k t (hist st)) as Hok.
  destruct (process_document svc b k t (hist st)) as [[record|e] h'].
  - destruct Hone as [(record' & rid & Hrun & Hid & Hrs & Hes)|(e & Hrun & _)];
      [|discriminate].
    cbn [fst] in Hrun. injection Hrun as <-.
    exists (written ++ [record]). cbn [snd]. rewrite Hrs, Hes.
    split; [now rewrite Hp, Hput, app_assoc|]. split.
    + apply Forall_app. split.
      * eapply Forall_impl; [|exact Hall]. intros a. apply stored_in_more.
      * constructor; [|constructor]. exists k, record, rid.
        repeat split; auto. apply in_or_app. right. now left.
    + rewrite !length_app. cbn [length]. lia.
  - destruct Hone as [(record' & rid & Hrun & _)|(e' & Hrun & Hrs & Hes)];
      [discriminate|].
    cbn [snd]. rewrite Hrs, Hes.
    destruct Hp as [Hp|(_ & item & Hp)].
    + exists written.
      split; [now rewrite Hp|]. split; [exact Hall|].
      rewrite length_app. cbn [length]. lia.
    + exists (written ++ [item]).
      split; [now rewrite Hp, Hput, app_assoc|]. split.
      * eapply Forall_impl; [|exact Hall]. intros a. apply stored_in_more.
      * rewrite !length_app. cbn [length]. lia.
Qed.

(** X7: every success entry reports the [id] of a record that was written
    during this run and that the record store accepted; there are at least
    as many writes as success entries and at most as many as entries. *)
Theorem reported_successes_are_stored (svc : services) (envelopes : list json)
  (h : history) :
  exists rs es h' written,
    lambda_handler svc (batch envelopes) h = (Ok (response_of rs es), h')
    /\ put_items h' = put_items h ++ written
    /\ (length rs <= length written <= length rs + length es)%nat
    /\ forall entry, In entry rs ->
         exists key record record_id,
           entry = success_entry key record_id
           /\ dict_get record (py "id") = Some record_id
           /\ In record written
           /\ exists h0, put_item svc h0 record = Ok tt.
Proof.
  assert (H : writes_match svc h (final_state svc envelopes h)).
  { apply (handle_envelopes_invariant svc (writes_match svc h)).
    - intros st b k t Hk. now apply handle_document_writes_match.
    - intros st e (written & Hput & Hall & Hlen). exists written.
      cbn [add_error results errors hist]. split; [exact Hput|]. split; [exact Hall|].
      rewrite length_app. cbn [length]. lia.
    - exists []. cbn. split; [now rewrite app_nil_r|]. split; [constructor|lia]. }
  destruct H as (written & Hput & Hall & Hlen).
  exists (results (final_state svc envelopes h)), (errors (final_state svc envelopes h)),
    (hist (final_state svc envelopes h)), written.
  split; [apply lambda_handler_batch|]. split; [exact Hput|]. split; [exact Hlen|].
  intros entry Hin. rewrite Forall_forall in Hall. exact (Hall entry Hin).
Qed.

Lemma merge_properties_nodup (props : list (str * json)) :
  forall record, NoDup (keys record) -> NoDup (keys (merge_properties record props)).
Proof.
  unfold merge_properties.
  induction props as [|[k v] props IH]; intros record H; [exact H|].
  cbn [fold_left fst snd]. apply IH. now apply dict_set_nodup.
Qed.

Lemma fixed_fields_nodup (record_id k : str) (b t : json) (pt fh : str) (sz : Z)
  (ct : str) (pc : option nat) :
  NoDup (keys (add_page_count (fixed_fields record_id k b t pt fh sz ct) pc)).
Proof.
  assert (H : NoDup (keys (fixed_fields record_id k b t pt fh sz ct))).
  { unfold fixed_fields, keys. cbn [map fst].
    repeat constructor; cbn [In]; intuition discriminate. }
  destruct pc; [|exact H]. now apply dict_set_nodup.
Qed.

Lemma merge_properties_keeps (record : dict) (props : list (str * json)) (k : str) :
  ~ In k (keys props) ->
  dict_get (merge_properties record props) k = dict_get record k.
Proof.
  intros Hnot. rewrite merge_properties_get.
  destruct (dict_get (rev props) k) as [v|] eqn:E; [|reflexivity].
  exfalso. apply Hnot.
  assert (Hin : forall d, dict_get d k = Some v -> In k (keys d)).
  { induction d as [|[k' v'] d IH]; simpl; [discriminate|].
    destruct (str_eqb k' k) eqn:E'; [|intros; right; now apply IH].
    intros _. left. now apply str_eqb_eq. }
  apply Hin in E. rewrite keys_rev in E. now apply in_rev in E.
Qed.

(** X8: the record of a document that is stored is the fixed fields, then
    the page count when [get_page_count] found one, then the properties
    read from the completion that the extraction service gave in this run,
    assigned in their order.  Its keys are pairwise distinct; unless the
    completion holds a property of the same name, it holds the key, the
    bucket and the upload time of the notification, the hash and the length
    of the fetched bytes, their content type (the default one when the
    object store gives none) and the page count; every property of the
    completion is in it. *)
Theorem stored_record_fields (svc : services) (b : json) (k : str) (t : json)
  (h h' : history) (content : bytes) (ct : option str) (record : dict) :
  s3_get_object svc h b k = Ok (content, ct) ->
  process_document svc b k t h = (Ok record, h') ->
  let content_type :=
    match ct with Some x => x | None => py "application/octet-stream" end in
  let h3 := h ++ [GetObject b k; OpenFile SCHEMA_FILE; OpenFile PROMPT_FILE] in
  exists props page_count prompt body,
    get_page_count svc content content_type = Ok page_count
    /\ h' = h ++ full_run b k prompt content content_type record
    /\ invoke_model svc h3 prompt content content_type = Ok body
    /\ read_completion body = Ok (JObject props)
    /\ record
       = merge_properties
           (add_page_count
              (fixed_fields
                 (uuid4 svc (h3 ++ [InvokeModel prompt content content_type]))
                 k b t
                 (utcnow svc (h3 ++ [InvokeModel prompt content content_type; Uuid4]))
                 (sha256_hexdigest svc content) (len content) content_type)
              page_count)
           props
    /\ NoDup (keys record)
    /\ (~ In (py "document_name") (keys props) ->
        dict_get record (py "document_name") = Some (JString k))
    /\ (~ In (py "bucket") (keys props) -> dict_get record (py "bucket") = Some b)
    /\ (~ In (py "upload_time") (keys props) ->
        dict_get record (py "upload_time") = Some t)
    /\ (~ In (py "file_hash") (keys props) ->
        dict_get record (py "file_hash") = Some (JString (sha256_hexdigest svc content)))
    /\ (~ In (py "file_size") (keys props) ->
        dict_get record (py "file_size") = Some (JInt (len content)))
    /\ (~ In (py "content_type") (keys props) ->
        dict_get record (py "content_type") = Some (JString content_type))
    /\ (~ In (py "page_count") (keys props) ->
        dict_get record (py "page_count")
        = match page_count with
          | Some n => Some (JInt (Z.of_nat n))
          | None => None
          end)
    /\ (forall name value, In (name, value) props -> dict_get record name = Some value).
Proof.
  intros Hs. revert record h'. pd_unfold.
  destruct (printable_document b k); [|intros record h' H; discriminate].
  cbn beta iota. rewrite Hs. cbn beta iota.
  rewrite <- !app_assoc. cbn [app].
  repeat pd_step; intros record h' H; try discriminate.
  injection H as <- <-. cbv zeta.
  match goal with
  | Hi : items ?v = Ok ?p, Hc : read_completion _ = Ok ?v |- _ =>
      destruct v; try discriminate; injection Hi as <-;
      pose proof (read_completion_keys _ _ Hc) as Hnd
  end.
  match goal with
  | Hp : get_page_count _ _ _ = Ok ?pc,
    Hm : invoke_model _ _ ?p _ _ = Ok ?body,
    Hc : read_completion _ = Ok (JObject ?d) |- _ =>
      exists d, pc, p, body; split; [reflexivity|]
  end.
  split; [unfold full_run; rewrite <- ?app_assoc; reflexivity|].
  split; [match goal with
          | Hm : invoke_model _ _ _ _ _ = Ok _ |- _ =>
              rewrite <- ?app_assoc in Hm; exact Hm
          end|].
  split; [assumption|].
  split; [rewrite <- ?app_assoc; reflexivity|].
  split; [apply merge_properties_nodup, fixed_fields_nodup|].
  repeat (split; [intros Hnot; rewrite (merge_properties_keeps _ _ _ Hnot);
                  destruct page_count; reflexivity|]).
  intros name value Hin. now apply merge_properties_wins.
Qed.

Lemma find_from_some (sub : str) (b : str) :
  forall (a : str) (i : nat), exists j, find_from sub (a ++ sub ++ b) i = Some j.
Proof.
  induction a as [|c a IH]; intros i.
  - cbn [app]. rewrite find_from_unfold, startswith_app. eauto.
  - cbn [app]. rewrite find_from_unfold.
    destruct (startswith sub (c :: a ++ sub ++ b)); [eauto|apply IH].
Qed.

Lemma contains_inside (sub a b : str) : contains sub (a ++ sub ++ b) = true.
Proof.
  unfold contains. destruct (find_from_some sub b a 0) as [j ->]. reflexivity.
Qed.

(** X9: a content type that holds the letters pdf anywhere, in any case, is
    inspected as a PDF: the result is the page count of the parse, or [None]
    when the parse raises. *)
Theorem get_page_count_matches_pdf_anywhere (svc : services) (content : bytes)
  (before tag after : str) :
  lower tag = py "pdf" ->
  get_page_count svc content (before ++ tag ++ after)
  = match pdf_page_count svc content with
    | Ok n => Ok (Some n)
    | Raise _ => Ok None
    end.
Proof.
  intros Htag. unfold get_page_count, get_page_count_try, lower.
  rewrite !map_app. fold (lower tag). rewrite Htag, contains_inside.
  destruct (pdf_page_count svc content); reflexivity.
Qed.

(** [get_page_count_matches_pdf_anywhere] on a content type that only
    mentions PdF. *)
Lemma get_page_count_matches_pdf_anywhere_witness :
  get_page_count Fixture.world [Byte.x25; Byte.x50] (py "text/x-" ++ py "PdF" ++ py "marks")
  = match pdf_page_count Fixture.world [Byte.x25; Byte.x50] with
    | Ok n => Ok (Some n)
    | Raise _ => Ok None
    end.
Proof.
  apply get_page_count_matches_pdf_anywhere. reflexivity.
Defined.

Lemma substring_refl (s : str) : substring s s.
Proof. exists [], []. now rewrite app_nil_r. Qed.

Lemma substring_trans (a b c : str) : substring a b -> substring b c -> substring a c.
Proof.
  intros (x & y & ->) (u & v & ->). exists (u ++ x), (y ++ v).
  now rewrite <- !app_assoc.
Qed.

Lemma slice_substring (s : str) (start stop : Z) : substring (slice s start stop) s.
Proof.
  unfold slice.
  set (a := Z.to_nat _). set (n := Z.to_nat _).
  exists (firstn n s), (skipn a (skipn n s)).
  rewrite (firstn_skipn a (skipn n s)). now rewrite firstn_skipn.
Qed.

Lemma lstrip_substring (s : str) : substring (lstrip s) s.
Proof.
  induction s as [|c s IH]; [apply substring_refl|].
  cbn [lstrip]. destruct (isspace c); [|apply substring_refl].
  destruct IH as (x & y & H). exists (c :: x), y. cbn [app]. now rewrite <- H.
Qed.

Lemma rstrip_substring (s : str) : substring (rstrip s) s.
Proof.
  unfold rstrip. destruct (lstrip_substring (rev s)) as (x & y & H).
  exists (rev y), (rev x).
  apply (f_equal (@rev N)) in H. rewrite rev_involutive, !rev_app_distr in H.
  rewrite <- app_assoc in H. exact H.
Qed.

Lemma strip_substring (s : str) : substring (strip s) s.
Proof.
  unfold strip. eapply substring_trans; [apply rstrip_substring|apply lstrip_substring].
Qed.

(** X10: the text that the parser decodes is always a contiguous part of
    the completion, so it is never longer. *)
Theorem fence_candidate_is_part_of_text (content : str) :
  substring (fence_candidate content) content
  /\ (length (fence_candidate content) <= length content)%nat.
Proof.
  assert (H : substring (fence_candidate content) content).
  { unfold fence_candidate.
    destruct (contains FENCE_JSON content);
      [|destruct (contains FENCE content); [|apply substring_refl]];
      (eapply substring_trans; [apply strip_substring|apply slice_substring]). }
  split; [exact H|]. destruct H as (a & b & H).
  rewrite H at 2. rewrite !length_app. lia.
Qed.

(** X11: when the first line is printed, the document fetched, the prompt
    rendered, and the completion parses to a JSON value that is not an
    object, [process_document] raises the [AttributeError] of [items()], which
    carries no stage prefix, after the identifier and the time were drawn
    and before any write. *)
Theorem non_object_completion_is_rejected (svc : services) (b : json) (k : str)
  (t : json) (h : history) (content : bytes) (ct : option str)
  (schema_text template prompt body : str) (schema v : json) :
  let media_type :=
    match ct with Some x => x | None => py "application/octet-stream" end in
  let h3 := h ++ [GetObject b k; OpenFile SCHEMA_FILE; OpenFile PROMPT_FILE] in
  printable_document b k = true ->
  s3_get_object svc h b k = Ok (content, ct) ->
  read_file svc SCHEMA_FILE = Ok schema_text ->
  json_decode schema_text = Some schema ->
  read_file svc PROMPT_FILE = Ok template ->
  format_prompt svc template schema = Ok prompt ->
  invoke_model svc h3 prompt content media_type = Ok body ->
  read_completion body = Ok v ->
  (forall d, v <> JObject d) ->
  process_document svc b k t h
  = (Raise AttributeError,
     h3 ++ [InvokeModel prompt content media_type; Uuid4; UtcNow])
  /\ stage_of AttributeError = None.
Proof.
  intros media_type h3 Hprint Hs Hschema Hdec Htemplate Hformat Hinvoke Hread Hnot.
  split; [|reflexivity].
  pd_unfold. rewrite Hprint. cbn beta iota. rewrite Hs. cbn beta iota.
  destruct (get_page_count_ok svc content media_type) as [pc Hpc].
  fold media_type. rewrite Hpc. cbn beta iota.
  rewrite Hschema. cbn beta iota. unfold loads, json_loads. rewrite Hdec. cbn beta iota.
  rewrite Htemplate. cbn beta iota. rewrite Hformat. cbn beta iota.
  rewrite <- !app_assoc. cbn [app]. fold h3.
  rewrite Hinvoke. cbn beta iota. rewrite Hread. cbn beta iota.
  destruct v as [|flag|z|lit|s|l|d]; try (exfalso; now apply (Hnot d)).
  all: cbn [items]; unfold h3; rewrite <- !app_assoc; reflexivity.
Qed.

(** [non_object_completion_is_rejected] in the world whose completions are
    a JSON list. *)
Lemma non_object_completion_is_rejected_witness :
  process_document Worlds.list_answer (JString (py "b")) (py "a.pdf") (JString (py "t0")) []
  = (Raise AttributeError,
     [ GetObject (JString (py "b")) (py "a.pdf"); OpenFile SCHEMA_FILE;
       OpenFile PROMPT_FILE ]
     ++ [ InvokeModel (py "Extract {schema}") [Byte.x25; Byte.x50]
            (py "application/pdf"); Uuid4; UtcNow ])
  /\ stage_of AttributeError = None.
Proof.
  apply (non_object_completion_is_rejected Worlds.list_answer (JString (py "b"))
           (py "a.pdf") (JString (py "t0")) [] [Byte.x25; Byte.x50]
           (Some (py "application/pdf")) (py "{}") (py "Extract {schema}")
           (py "Extract {schema}") (Fixture.completion_body (py "[1, 2]"))
           (JObject []) (JArray [JInt 1; JInt 2]));
    try (vm_compute; reflexivity).
  intros d. discriminate.
Defined.

Lemma completed_prefix_named (svc : services) (records : list json) :
  loop_exit svc records = None ->
  completed_prefix svc records = readable svc records.
Proof.
  induction records as [|r rest IH]; [reflexivity|].
  unfold readable. cbn [loop_exit completed_prefix flat_map].
  destruct (read_record svc r) as [d|]; [|discriminate].
  destruct (encodable (doc_key d)); [|discriminate].
  intros H. fold (readable svc rest). now rewrite (IH H).
Qed.

Lemma completed_named (svc : services) (env : json) :
  envelope_exit svc env = None -> completed svc env = named svc env.
Proof.
  unfold envelope_exit, completed, named.
  destruct (unwrap_envelope env) as [records|]; [|discriminate].
  apply completed_prefix_named.
Qed.

Lemma none_raised (os : list (docref * result dict)) :
  filter raised os = [] -> filter returned os = os.
Proof.
  unfold raised. induction os as [|o os IH]; [reflexivity|].
  cbn [filter]. destruct (returned o); cbn [negb]; [|discriminate].
  intros H. now rewrite (IH H).
Qed.

(** X12: the status code is 200 exactly when the failure list is empty, and
    then every document that the batch names has a success entry and there
    are as many success entries as documents. *)
Theorem status_200_means_every_document_succeeded (svc : services)
  (envelopes : list json) (h : history) :
  exists resp rs es h',
    lambda_handler svc (batch envelopes) h = (Ok resp, h')
    /\ resp = response_of rs es
    /\ (statusCode resp = 200 <-> es = [])
    /\ (statusCode resp = 200 ->
        length rs = length (flat_map (named svc) envelopes)
        /\ forall d, In d (flat_map (named svc) envelopes) ->
             exists entry, In entry rs
                           /\ entry_document entry = Some (JString (doc_key d))
                           /\ entry_status entry = Some (JString (py "success"))).
Proof.
  destruct (handle_envelopes_entries svc envelopes
              {| results := []; errors := []; hist := h |})
    as (rs & es & [Hr He] & [Hrs Hes] & Hexits & _).
  cbn [results errors hist app] in Hr, He, Hrs, Hes.
  exists (response_of rs es), rs, es, (hist (final_state svc envelopes h)).
  split; [rewrite lambda_handler_batch; unfold final_state; now rewrite Hr, He|].
  split; [reflexivity|].
  assert (Hiff : statusCode (response_of rs es) = 200 <-> es = []).
  { destruct es; cbn; split; intros; (reflexivity || discriminate). }
  split; [exact Hiff|]. intros H200. apply Hiff in H200. clear Hiff He.
  rewrite H200 in Hes, Hexits. cbn [filter] in Hes, Hexits. clear H200.
  assert (Hsame : flat_map (completed svc) envelopes = flat_map (named svc) envelopes).
  { clear -Hexits. unfold exits in Hexits.
    induction envelopes as [|env rest IH]; [reflexivity|].
    cbn [flat_map] in *. rewrite map_app in Hexits. symmetry in Hexits.
    apply app_eq_nil in Hexits as [Henv Hrest].
    rewrite IH by (now rewrite Hrest). f_equal. apply completed_named.
    destruct (envelope_exit svc env); [discriminate|reflexivity]. }
  rewrite Hsame in Hrs, Hes.
  inversion Hes as [Hnone|]. symmetry in Hnone. apply none_raised in Hnone.
  rewrite Hnone in Hrs. split.
  - rewrite <- (Forall2_length Hrs). apply outcomes_length.
  - intros d Hin. destruct (outcomes_In svc _ h d Hin) as [r Ho].
    destruct (Forall2_In_left _ _ _ _ Hrs Ho) as (entry & Hentry & Hrep).
    exists entry. split; [exact Hentry|]. split; [exact (reports_document _ _ Hrep)|].
    rewrite (reports_status _ _ Hrep).
    assert (Hret : returned (d, r) = true).
    { rewrite <- Hnone in Ho. now apply filter_In in Ho. }
    now rewrite Hret.
Qed.




(** [stored_record_fields] on a stored PDF whose completion names a
    bucket. *)
Lemma stored_record_fields_witness :
  exists record h',
    process_document Fixture.world (JString (py "b")) (py "a.pdf") (JString (py "t0")) []
    = (Ok record, h')
    /\ dict_get record (py "file_size") = Some (JInt 2)
    /\ dict_get record (py "page_count") = Some (JInt 2)
    /\ dict_get record (py "bucket") = Some (JString (py "override"))
    /\ dict_get record (py "document_name") = Some (JString (py "a.pdf"))
    /\ NoDup (keys record).
Proof.
  destruct (process_document Fixture.world (JString (py "b")) (py "a.pdf")
              (JString (py "t0")) []) as [[record|e] h'] eqn:E;
    [|vm_compute in E; discriminate].
  exists record, h'. split; [reflexivity|].
  destruct (stored_record_fields Fixture.world (JString (py "b")) (py "a.pdf")
              (JString (py "t0")) [] h' [Byte.x25; Byte.x50]
              (Some (py "application/pdf")) record eq_refl E)
    as (props & pc & prompt & body & Hpc & _ & _ & _ & _ & Hnd & _).
  vm_compute in E. injection E as <- _.
  split; [reflexivity|]. split; [reflexivity|]. split; [reflexivity|].
  split; [reflexivity|exact Hnd].
Defined.
